(** * fallback-duckduckgo: a shallow embedding of [src/__init__.py]

    The skill isolates a topic from an utterance, asks the DuckDuckGo
    instant-answer API about it and turns the reply into one speakable
    string.  This file embeds the Python code and proves (or refutes, at a
    concrete input) the properties stated for it.

    Modelling conventions.
    - A Python [str] is a sequence of code points.  It is embedded as
      [string]; every [ascii] stands for ONE code point (not for a UTF-8
      byte), so the development covers text over the code points 0..255.
      Case conversion ([str.lower], [str.title]) follows Python on these
      code points; only the title-case forms of U+00B5 and U+00FF lie above
      255, and [str.title] leaves those two code points as they are here.
    - A call that may raise returns a [res]; code that talks to the outside
      world (the search API, HTTP, the speech output) lives in the monad
      [M], which records every outbound call in a trace.
    - Logging ([self.log.*]) has no influence on any result and is left out. *)

From Stdlib Require Import String Ascii List Bool Arith Lia.
From Stdlib Require Import Sorted Permutation.
Import ListNotations.
Open Scope list_scope.
Open Scope string_scope.

(* ================================================================= *)
(** ** Python string primitives *)

Module Py.

(** [s[n:]] *)
Fixpoint drop (n : nat) (s : string) : string :=
  match n, s with
  | O, _ => s
  | S _, EmptyString => EmptyString
  | S k, String _ s' => drop k s'
  end.

(** [s[:n]] *)
Fixpoint take (n : nat) (s : string) : string :=
  match n, s with
  | O, _ => EmptyString
  | S _, EmptyString => EmptyString
  | S k, String c s' => String c (take k s')
  end.

(** [s[::-1]], used to look at the end of a string. *)
Fixpoint rev (s : string) : string :=
  match s with
  | EmptyString => EmptyString
  | String c s' => rev s' ++ String c EmptyString
  end.

(** [s[-1]]: [None] stands for the [IndexError] of an empty string. *)
Definition last_char (s : string) : option ascii :=
  match rev s with
  | EmptyString => None
  | String c _ => Some c
  end.

(** [s[:-1]] *)
Definition drop_last (s : string) : string :=
  take (String.length s - 1) s.

(** [s[-n:]] for [n > 0]: the whole string when it is shorter than [n]. *)
Definition last_n (n : nat) (s : string) : string :=
  drop (String.length s - n) s.

(** [c in chars] for a one-character string [c]. *)
Fixpoint char_in (c : ascii) (chars : string) : bool :=
  match chars with
  | EmptyString => false
  | String d rest => Ascii.eqb c d || char_in c rest
  end.

(** [q[:len(test)] == test] *)
Definition startswith (test q : string) : bool :=
  String.eqb (take (String.length test) q) test.

(** [x in xs] for a list of strings. *)
Fixpoint mem (x : string) (xs : list string) : bool :=
  match xs with
  | [] => false
  | y :: ys => String.eqb x y || mem x ys
  end.

(** [old in s]: substring test. *)
Fixpoint contains (old s : string) : bool :=
  startswith old s ||
  match s with
  | EmptyString => false
  | String _ s' => contains old s'
  end.

(** [new.join(c for c in s)] with [new] also before and after: what
    [s.replace("", new)] gives. *)
Fixpoint interleave (new s : string) : string :=
  match s with
  | EmptyString => new
  | String c s' => new ++ String c (interleave new s')
  end.

(** Scan for [s.replace(old, new)], [old] non-empty: left to right, every
    occurrence that does not overlap an earlier one.  [skip] counts the
    characters of a matched occurrence still to be passed over. *)
Fixpoint replace_scan (old new : string) (skip : nat) (s : string) : string :=
  match s with
  | EmptyString => EmptyString
  | String c s' =>
      match skip with
      | S k => replace_scan old new k s'
      | O =>
          if startswith old s
          then new ++ replace_scan old new (String.length old - 1) s'
          else String c (replace_scan old new 0 s')
      end
  end.

(** [s.replace(old, new)] *)
Definition replace (old new s : string) : string :=
  match old with
  | EmptyString => interleave new s
  | _ => replace_scan old new 0 s
  end.

(** Scan for [s.split(sep)], [sep] non-empty; [cur] is the piece being
    collected. *)
Fixpoint split_scan (sep : string) (skip : nat) (cur s : string) : list string :=
  match s with
  | EmptyString => [cur]
  | String c s' =>
      match skip with
      | S k => split_scan sep k cur s'
      | O =>
          if startswith sep s
          then cur :: split_scan sep (String.length sep - 1) EmptyString s'
          else split_scan sep 0 (cur ++ String c EmptyString) s'
      end
  end.

(** [s.split(sep)] for a non-empty [sep] (all uses in the source). *)
Definition split (sep s : string) : list string :=
  split_scan sep 0 EmptyString s.

(** [sep.join(xs)] *)
Definition join (sep : string) (xs : list string) : string :=
  String.concat sep xs.

(** [str.isspace] on one code point below 256. *)
Definition is_space (c : ascii) : bool :=
  let n := nat_of_ascii c in
  (Nat.leb 9 n && Nat.leb n 13) || (Nat.leb 28 n && Nat.leb n 32)
  || Nat.eqb n 133 || Nat.eqb n 160.

(** [s.split()]: pieces between runs of whitespace, none of them empty. *)
Fixpoint split_ws_scan (cur s : string) : list string :=
  match s with
  | EmptyString => match cur with EmptyString => [] | _ => [cur] end
  | String c s' =>
      if is_space c
      then match cur with
           | EmptyString => split_ws_scan EmptyString s'
           | _ => cur :: split_ws_scan EmptyString s'
           end
      else split_ws_scan (cur ++ String c EmptyString) s'
  end.

Definition split_ws (s : string) : list string := split_ws_scan EmptyString s.

(** [s.lstrip()] and [s.strip()] *)
Fixpoint lstrip (s : string) : string :=
  match s with
  | EmptyString => EmptyString
  | String c s' => if is_space c then lstrip s' else s
  end.

Definition strip (s : string) : string := rev (lstrip (rev (lstrip s))).

Definition is_upper (c : ascii) : bool :=
  let n := nat_of_ascii c in Nat.leb 65 n && Nat.leb n 90.

Definition is_lower (c : ascii) : bool :=
  let n := nat_of_ascii c in Nat.leb 97 n && Nat.leb n 122.

(** The capitals among the code points below 256: A-Z and the Latin-1
    capitals U+00C0..U+00DE, the sign U+00D7 apart; the small letter of
    each is 32 above it. *)
Definition is_capital (c : ascii) : bool :=
  let n := nat_of_ascii c in
  is_upper c || (Nat.leb 192 n && Nat.leb n 214)
  || (Nat.leb 216 n && Nat.leb n 222).

(** The small letters with a capital below 256: a-z and U+00E0..U+00FE,
    the sign U+00F7 apart. *)
Definition is_small (c : ascii) : bool :=
  let n := nat_of_ascii c in
  is_lower c || (Nat.leb 224 n && Nat.leb n 246)
  || (Nat.leb 248 n && Nat.leb n 254).

(** The cased code points below 256: the letters above, the small letters
    without a capital below 256 (U+00B5, U+00DF, U+00FF) and the two
    ordinal indicators (U+00AA, U+00BA). *)
Definition is_cased (c : ascii) : bool :=
  let n := nat_of_ascii c in
  is_capital c || is_small c
  || Nat.eqb n 170 || Nat.eqb n 181 || Nat.eqb n 186
  || Nat.eqb n 223 || Nat.eqb n 255.

Definition lower_char (c : ascii) : ascii :=
  if is_capital c then ascii_of_nat (nat_of_ascii c + 32) else c.

(** The title-case form of one code point: the capital of a small letter,
    "Ss" for U+00DF, the code point itself otherwise. *)
Definition title_char (c : ascii) : string :=
  if is_small c
  then String (ascii_of_nat (nat_of_ascii c - 32)) EmptyString
  else if Nat.eqb (nat_of_ascii c) 223 then "Ss"
  else String c EmptyString.

(** [s.lower()] *)
Fixpoint lower (s : string) : string :=
  match s with
  | EmptyString => EmptyString
  | String c s' => String (lower_char c) (lower s')
  end.

(** [s.title()]: a character after a cased character is lowered, any
    other character is put in title case.  [prev] tells whether the
    previous character was cased. *)
Fixpoint title_scan (prev : bool) (s : string) : string :=
  match s with
  | EmptyString => EmptyString
  | String c s' =>
      (if prev then String (lower_char c) EmptyString else title_char c)
      ++ title_scan (is_cased c) s'
  end.

Definition title (s : string) : string := title_scan false s.

(** [xs.index(x)] for an [x] known to be in [xs]. *)
Fixpoint index (x : string) (xs : list string) : nat :=
  match xs with
  | [] => 0
  | y :: ys => if String.eqb x y then 0 else S (index x ys)
  end.

End Py.

(* ================================================================= *)
(** ** Results of calls that may raise *)

(** The exceptions the code can meet: the [IndexError] of an index out of
    range, the [TypeError] of [len(None)] and of [None + str], and whatever
    a library call raises ([Exception] subclasses, told apart by name
    only). *)
Inductive exn : Type :=
| IndexError
| TypeError
| LibError (name : string).

(** [OutOfFuel] is not a Python outcome: it marks a [while] loop that has
    not ended within the fuel it was given. *)
Inductive res (A : Type) : Type :=
| Ret (a : A)
| Raise (e : exn)
| OutOfFuel.
Arguments Ret {A} a.
Arguments Raise {A} e.
Arguments OutOfFuel {A}.

Definition rbind {A B} (r : res A) (f : A -> res B) : res B :=
  match r with
  | Ret a => f a
  | Raise e => Raise e
  | OutOfFuel => OutOfFuel
  end.

(* ================================================================= *)
(** ** [split_sentences] *)

(** [re.sub(r' ([^ .])\.', r' \1~.~', text)]: a space, one character that
    is neither a space nor a period, and a period; matches are taken left to
    right and do not overlap. *)
Fixpoint protect_initials (text : string) : string :=
  match text with
  | EmptyString => EmptyString
  | String a rest =>
      match rest with
      | String c (String d rest') =>
          if Ascii.eqb a " " && negb (Py.char_in c " .") && Ascii.eqb d "."
          then String a (String c ("~.~" ++ protect_initials rest'))
          else String a (protect_initials rest)
      | _ => String a (protect_initials rest)
      end
  end.

(** The body of [split_sentences], line by line. *)
Definition split_sentences (text : string) : res (list string) :=
  let text := protect_initials text in
  let text := Py.replace "Inc." "Inc~.~" text in
  let text := Py.replace "! " ". " text in
  let text := Py.replace "? " ". " text in
  let sents := Py.split ". " text in
  let sents := map (Py.replace "~.~" ".") sents in
  (* sents[-1] exists: str.split never returns an empty list *)
  let lst := List.last sents EmptyString in
  match Py.last_char lst with
  | None => Raise IndexError
  | Some c =>
      if Py.char_in c ".!?"
      then Ret (removelast sents ++ [Py.drop_last lst])%list
      else Ret sents
  end.

(* ================================================================= *)
(** ** The skill's data *)

(** The fields of [DuckduckgoSkill] set in [__init__]: the localized word
    lists and the skill's own vocabulary, already in the order the sort of
    [__init__] leaves it in. *)
Record Config : Type := {
  translated_question_words : list string;
  translated_question_verbs : list string;
  translated_articles : list string;
  translated_start_words : list string;
  sorted_vocab : list string
}.

(** [self.is_verb] and [self.in_word] *)
Definition is_verb : string := " is ".
Definition in_word : string := "in ".

(** A [ddg.Result] (an entry of [response.related]).  Its [text] and
    [url] are [None] when the reply has no such element. *)
Record Related : Type := {
  related_text : option string;
  related_url : option string
}.

(** A [ddg.Results] object, with the fields [query_ddg] reads:
    [response.type], [response.related], [response.abstract.text] and
    [response.answer] ([None], or an answer object with its [text]; only
    the truth value of that text is read before the substring test, so a
    text that is [None] behaves as the empty text does). *)
Record Response : Type := {
  rtype : string;
  related : list Related;
  abstract_text : string;
  answer : option string
}.

(* ================================================================= *)
(** ** [format_related] *)

(** [while ans[-1] == '.': ans = ans[:-1]], run on the reversed string. *)
Fixpoint strip_dots_rev (r : string) : res string :=
  match r with
  | EmptyString => Raise IndexError
  | String c r' => if Ascii.eqb c "." then strip_dots_rev r' else Ret r
  end.

Definition strip_dots (ans : string) : res string :=
  rbind (strip_dots_rev (Py.rev ans)) (fun r => Ret (Py.rev r)).

(** [ans.split(' ')[-1]] *)
Definition last_word_of (ans : string) : string :=
  List.last (Py.split " " ans) EmptyString.

(** The second [while] loop of [format_related]; one unit of fuel per
    iteration. *)
Fixpoint strip_fillers (fuel : nat) (cfg : Config) (ans last_word : string)
  : res string :=
  if Py.mem last_word (translated_start_words cfg)
     || String.eqb (Py.last_n 3 last_word) "ing"
  then match fuel with
       | O => OutOfFuel
       | S k =>
           let ans := Py.replace (" " ++ last_word) "" ans in
           strip_fillers k cfg ans (last_word_of ans)
       end
  else Ret ans.

(** The block under [if ans[-2:] == '..']. *)
Definition untruncate (fuel : nat) (cfg : Config) (ans : string) : res string :=
  rbind (strip_dots ans) (fun ans =>
  let phrases := Py.split ", " ans in
  let first := Py.join ", " (removelast phrases) in
  let last := List.last phrases EmptyString in
  match Py.split_ws last with
  | [] => Raise IndexError                      (* last.split()[0] *)
  | w :: _ =>
      let ans := if Py.mem w (translated_start_words cfg) then first else ans in
      strip_fillers fuel cfg ans (last_word_of ans)
  end).

(** The longest prefix made of the characters of [[a-z ]]. *)
Fixpoint category_run (s : string) : string :=
  match s with
  | EmptyString => EmptyString
  | String c s' =>
      if Py.is_lower c || Ascii.eqb c " "
      then String c (category_run s') else EmptyString
  end.

(** [re.search(r'\(([a-z ]+)\)', ans)]: the leftmost match, as
    [(match.start(1), match.group(1))].  The class holds neither bracket,
    so a match at an opening bracket is its whole run of class characters,
    at least one, followed by the closing bracket. *)
Fixpoint search_category (pos : nat) (s : string) : option (nat * string) :=
  match s with
  | EmptyString => None
  | String c s' =>
      let run := category_run s' in
      if Ascii.eqb c "("
         && negb (String.eqb run "")
         && Py.startswith ")" (Py.drop (String.length run) s')
      then Some (S pos, run)
      else search_category (S pos) s'
  end.

(** The [for article in self.translated_articles] loop; [nq] is
    [len(query.split())]. *)
Fixpoint insert_is_verb (articles words : list string) (nq : nat) (ans : string)
  : string :=
  match articles with
  | [] => ans
  | article :: rest =>
      let article := Py.title article in
      if Py.mem article words
      then
        let index := Py.index article words in
        if Nat.leb index (2 * nq)
        then
          let name := firstn index words in
          let desc := skipn index words in
          let desc := match desc with
                      | d :: ds => Py.lower d :: ds
                      | [] => []
                      end in
          Py.join " " name ++ is_verb ++ Py.join " " desc      (* break *)
        else insert_is_verb rest words nq ans
      else insert_is_verb rest words nq ans
  end.

(** The last statement: [if ans[-1] not in '.?!': ans += '.']. *)
Definition ensure_punctuation (ans : string) : res string :=
  match Py.last_char ans with
  | None => Raise IndexError
  | Some c => if Py.char_in c ".?!" then Ret ans else Ret (ans ++ ".")
  end.

Definition format_related (fuel : nat) (cfg : Config) (abstract query : string)
  : res string :=
  let ans := abstract in
  rbind (if String.eqb (Py.last_n 2 ans) ".."
         then untruncate fuel cfg ans else Ret ans) (fun ans =>
  let '(category, ans) :=
    match search_category 0 ans with
    | Some (start, group) =>
        if Nat.leb start (String.length query * 2)
        then (Some group, Py.replace ("(" ++ group ++ ")") "()" ans)
        else (None, ans)
    | None => (None, ans)
    end in
  let words := Py.split_ws ans in
  let ans := insert_is_verb (translated_articles cfg) words
               (List.length (Py.split_ws query)) ans in
  let ans :=
    match category with
    | Some (String _ _ as cat) => Py.replace "()" (in_word ++ cat) ans
    | _ => ans
    end in
  ensure_punctuation ans).

(* ================================================================= *)
(** ** The outside world *)

(** What the skill does to the outside: the primary search ([ddg.query]),
    the HTTP fetch of a detail page ([requests.get]) and the two speech
    calls. *)
Inductive event : Type :=
| EvQuery (topic : string)
| EvGet (url : string)
| EvSpeakDialog (name : string)
| EvSpeak (text : string).

(** The remote side.  [ddg_query q] is what [ddg.query(q)] gives,
    [requests_get url] the [content] of [requests.get(url)], and
    [parse_results body] what [ddg.Results(ElementTree.fromstring(body))]
    gives; each may raise. *)
Record Env : Type := {
  ddg_query : string -> res Response;
  requests_get : string -> res string;
  parse_results : string -> res Response
}.

(** A computation: the events it has caused, in order, and how it ended. *)
Definition M (A : Type) : Type := (list event * res A)%type.

Definition ret {A} (a : A) : M A := ([], Ret a).

Definition bind {A B} (m : M A) (f : A -> M B) : M B :=
  match m with
  | (t, Ret a) => let '(t', r) := f a in ((t ++ t')%list, r)
  | (t, Raise e) => (t, Raise e)
  | (t, OutOfFuel) => (t, OutOfFuel)
  end.

Definition lift {A} (r : res A) : M A := ([], r).

Definition emit {A} (e : event) (r : res A) : M A := ([e], r).

Notation "x <- m ;; k" := (bind m (fun x => k))
  (at level 61, m at next level, right associativity).
Notation "m ;;; k" := (bind m (fun _ => k))
  (at level 61, right associativity).

Definition trace {A} (m : M A) : list event := fst m.
Definition outcome {A} (m : M A) : res A := snd m.

Definition is_http (e : event) : bool :=
  match e with
  | EvQuery _ | EvGet _ => true
  | _ => false
  end.

Definition is_primary (e : event) : bool :=
  match e with
  | EvQuery _ => true
  | _ => false
  end.

(** Number of outbound HTTP calls, and of primary searches, in a trace. *)
Definition http_calls (t : list event) : nat := List.length (filter is_http t).
Definition primary_calls (t : list event) : nat :=
  List.length (filter is_primary t).

(* ================================================================= *)
(** ** [query_ddg] *)

(** The [if response.type == 'disambiguation'] block. *)
Definition disambiguate (env : Env) (response : Response) : M Response :=
  if String.eqb (rtype response) "disambiguation"
  then match related response with
       | r0 :: _ =>
           match related_url r0 with
           | None => lift (Raise TypeError)              (* None + "?o=x" *)
           | Some url =>
               let detailed_url := url ++ "?o=x" in
               detailed_response <- emit (EvGet detailed_url)
                                         (requests_get env detailed_url) ;;
               match detailed_response with
               | EmptyString => ret response
               | _ => lift (parse_results env detailed_response)
               end
           end
       | [] => ret response
       end
  else ret response.

(** The [if] / [elif] chain at the end of [query_ddg]. *)
Definition select_answer (fuel : nat) (cfg : Config) (query : string)
  (response : Response) : res (option string) :=
  let direct :=
    match answer response with
    | Some text => negb (String.eqb text "") && negb (Py.contains "HASH" text)
    | None => false
    end in
  if direct
  then match answer response with
       | Some text => Ret (Some (query ++ is_verb ++ text ++ "."))
       | None => Ret None
       end
  else if Nat.ltb 0 (String.length (abstract_text response))
  then rbind (split_sentences (abstract_text response)) (fun sents =>
       Ret (Some (Py.join ". " sents)))
  else match related response with
       | r0 :: _ =>
           match related_text r0 with
           | None => Raise TypeError                     (* len(None) *)
           | Some text =>
               if Nat.ltb 0 (String.length text)
               then rbind (split_sentences text) (fun sents =>
                    match sents with
                    | related :: _ =>
                        rbind (format_related fuel cfg related query)
                              (fun a => Ret (Some a))
                    | [] => Raise IndexError
                    end)
               else Ret None
           end
       | [] => Ret None
       end.

Definition query_ddg (fuel : nat) (env : Env) (cfg : Config) (query : string)
  : M (option string) :=
  if Nat.eqb (String.length query) 0
  then ret None
  else
    match ddg_query env query with
    | Raise _ => emit (EvQuery query) (Ret None)      (* except Exception *)
    | r =>
        response <- emit (EvQuery query) r ;;
        response <- disambiguate env response ;;
        lift (select_answer fuel cfg query response)
    end.

(* ================================================================= *)
(** ** [extract_topic] *)

(** [[i + ' ' for i in self.translated_articles] + ['']] *)
Definition article_forms (cfg : Config) : list string :=
  List.app (map (fun i => i ++ " ") (translated_articles cfg)) [""].

(** [test = noun + verb + ' ' + article] *)
Definition test_prefix (noun verb article : string) : string :=
  noun ++ verb ++ " " ++ article.

(** The three nested loops; [Some r] when the [return] in the innermost
    body is reached. *)
Fixpoint topic_articles (noun verb : string) (articles : list string)
  (query : string) : option string :=
  match articles with
  | [] => None
  | article :: rest =>
      let test := test_prefix noun verb article in
      if Py.startswith test query
      then Some (Py.drop (String.length test) query)
      else topic_articles noun verb rest query
  end.

Fixpoint topic_verbs (noun : string) (verbs articles : list string)
  (query : string) : option string :=
  match verbs with
  | [] => None
  | verb :: rest =>
      match topic_articles noun verb articles query with
      | Some r => Some r
      | None => topic_verbs noun rest articles query
      end
  end.

Fixpoint topic_nouns (nouns verbs articles : list string) (query : string)
  : option string :=
  match nouns with
  | [] => None
  | noun :: rest =>
      match topic_verbs noun verbs articles query with
      | Some r => Some r
      | None => topic_nouns rest verbs articles query
      end
  end.

Definition extract_topic (cfg : Config) (query : string) : string :=
  match topic_nouns (translated_question_words cfg)
                    (translated_question_verbs cfg)
                    (article_forms cfg) query with
  | Some r => r
  | None => query
  end.

(* ================================================================= *)
(** ** [CQS_match_query_phrase] *)

Inductive CQSMatchLevel : Type := CATEGORY.

(** The innermost loop: on a match, [answer] is assigned and the loop is
    left by [break]; otherwise [answer] is as it was. *)
Fixpoint cqs_articles (fuel : nat) (env : Env) (cfg : Config)
  (noun verb : string) (articles : list string) (query : string)
  (answer : option string) : M (option string) :=
  match articles with
  | [] => ret answer
  | article :: rest =>
      let test := test_prefix noun verb article in
      if Py.startswith test query
      then query_ddg fuel env cfg (Py.drop (String.length test) query)
      else cqs_articles fuel env cfg noun verb rest query answer
  end.

(** The loop over the verbs: the [break] above does not leave it. *)
Fixpoint cqs_verbs (fuel : nat) (env : Env) (cfg : Config)
  (noun : string) (verbs articles : list string) (query : string)
  (answer : option string) : M (option string) :=
  match verbs with
  | [] => ret answer
  | verb :: rest =>
      answer <- cqs_articles fuel env cfg noun verb articles query answer ;;
      cqs_verbs fuel env cfg noun rest articles query answer
  end.

Fixpoint cqs_nouns (fuel : nat) (env : Env) (cfg : Config)
  (nouns verbs articles : list string) (query : string)
  (answer : option string) : M (option string) :=
  match nouns with
  | [] => ret answer
  | noun :: rest =>
      answer <- cqs_verbs fuel env cfg noun verbs articles query answer ;;
      cqs_nouns fuel env cfg rest verbs articles query answer
  end.

Definition CQS_match_query_phrase (fuel : nat) (env : Env) (cfg : Config)
  (query : string) : M (option (string * CQSMatchLevel * string)) :=
  answer <- cqs_nouns fuel env cfg (translated_question_words cfg)
              (translated_question_verbs cfg) (article_forms cfg) query None ;;
  match answer with
  | Some (String _ _ as a) => ret (Some (query, CATEGORY, a))   (* if answer: *)
  | _ => ret None
  end.

(* ================================================================= *)
(** ** [handle_ask_ducky] *)

(** The utterance as it is handed to [query_ddg]: the vocabulary removed,
    stripped, the topic extracted, and the three [replace] calls. *)
Definition ask_ducky_topic (cfg : Config) (utt : string) : string :=
  let utt := fold_left (fun utt voc => Py.replace voc "" utt)
                       (sorted_vocab cfg) utt in
  let utt := Py.strip utt in
  let utt := extract_topic cfg utt in
  let utt := Py.replace "an " "" utt in
  let utt := Py.replace "a " "" utt in
  let utt := Py.replace "the " "" utt in
  utt.

(** [utterance] is [message.data['utterance']], which may be [None]. *)
Definition handle_ask_ducky (fuel : nat) (env : Env) (cfg : Config)
  (utterance : option string) : M unit :=
  match utterance with
  | None => ret tt
  | Some utt =>
      response <- query_ddg fuel env cfg (ask_ducky_topic cfg utt) ;;
      match response with
      | Some r =>
          emit (EvSpeakDialog "ddg.specific.response") (Ret tt) ;;;
          emit (EvSpeak r) (Ret tt)
      | None => ret tt
      end
  end.

(* ================================================================= *)
(** ** Vocabulary of the statements *)

(** The string ends in one of the terminal punctuation marks. *)
Definition ends_in_terminal (s : string) : bool :=
  match Py.last_char s with
  | Some c => Py.char_in c ".?!"
  | None => false
  end.

(** The prefixes [extract_topic] tries, in the order it tries them. *)
Definition combinations (cfg : Config) : list string :=
  flat_map (fun noun =>
    flat_map (fun verb => map (test_prefix noun verb) (article_forms cfg))
             (translated_question_verbs cfg))
    (translated_question_words cfg).

(** What is returned for the first prefix of [tests] that starts [query]. *)
Definition first_match (tests : list string) (query : string) : option string :=
  option_map (fun t => Py.drop (String.length t) query)
             (find (fun t => Py.startswith t query) tests).

(** Index of the leftmost occurrence of [old] in [s] ([s.find(old)]). *)
Fixpoint find_occ (old s : string) : option nat :=
  if Py.startswith old s then Some 0
  else match s with
       | EmptyString => None
       | String _ s' => option_map S (find_occ old s')
       end.

(** Removal of the first occurrence only ([s.replace(old, '', 1)]): the
    reading of the intent handler in which each article is stripped once.
    It is NOT what the source calls. *)
Definition remove_first (old s : string) : string :=
  match find_occ old s with
  | Some i => Py.take i s ++ Py.drop (i + String.length old) s
  | None => s
  end.

Definition ask_ducky_topic_first_only (cfg : Config) (utt : string) : string :=
  let utt := fold_left (fun utt voc => Py.replace voc "" utt)
                       (sorted_vocab cfg) utt in
  let utt := Py.strip utt in
  let utt := extract_topic cfg utt in
  let utt := remove_first "an " utt in
  let utt := remove_first "a " utt in
  let utt := remove_first "the " utt in
  utt.

(** The topics of the primary searches in a trace. *)
Fixpoint queried (t : list event) : list string :=
  match t with
  | [] => []
  | EvQuery q :: t' => q :: queried t'
  | _ :: t' => queried t'
  end.

(** [s.replace(p, '')] deletes the leftmost occurrence of [p] and goes on
    in the same way behind it. *)
Definition removes_every_occurrence (p : string) : Prop :=
  forall s,
    Py.replace p "" s =
    match find_occ p s with
    | Some i => Py.take i s ++ Py.replace p "" (Py.drop (i + String.length p) s)
    | None => s
    end.

(** *** Concrete inputs *)

Definition words_only (nouns verbs articles : list string) : Config := {|
  translated_question_words := nouns;
  translated_question_verbs := verbs;
  translated_articles := articles;
  translated_start_words := [];
  sorted_vocab := [] |}.

(** The word lists of the topic-extraction example, as it is worded. *)
Definition cfg_bare_verb : Config := words_only ["what"] ["is"] ["a"; "the"].

(** The same lists with the verb carrying its leading space. *)
Definition cfg_spaced_verb : Config := words_only ["what"] [" is"] ["a"; "the"].

(** Word lists in which one verb entry extends another. *)
Definition cfg_two_verbs : Config :=
  words_only ["what"] [" is"; " is called"] ["a"; "the"].

Definition plain (abstract : string) (ans : option string) : Response := {|
  rtype := "answer"; related := []; abstract_text := abstract; answer := ans |}.

Definition mercury : Related := {|
  related_text := Some "Mercury, A planet in the Solar System";
  related_url := Some "https://duckduckgo.com/Mercury_(planet)" |}.

Definition disambiguation_of (r : Related) : Response := {|
  rtype := "disambiguation"; related := [r]; abstract_text := "";
  answer := None |}.

Definition hash_reply : Response :=
  plain "A hash function maps data to a fixed size."
        (Some "SHA1 HASH of hello: aaf4c61ddcc5e8a2dabede0f3b482cd9aea9434d").

(** A remote side that answers every search with [r] and whose detail
    fetch ends as [detail]. *)
Definition env_const (r : res Response) (detail : res string) : Env := {|
  ddg_query := fun _ => r;
  requests_get := fun _ => detail;
  parse_results := fun _ => Raise (LibError "ParseError") |}.

(** The detail fetch of the disambiguation page fails, returns nothing,
    or returns a body that does not parse. *)
Definition env_fetch_raises : Env :=
  env_const (Ret (disambiguation_of mercury)) (Raise (LibError "ConnectionError")).
Definition env_fetch_empty : Env :=
  env_const (Ret (disambiguation_of mercury)) (Ret "").
Definition env_fetch_garbled : Env :=
  env_const (Ret (disambiguation_of mercury)) (Ret "<html>").

(** The primary search raises (the source notes that '1+1' does). *)
Definition env_search_raises : Env :=
  env_const (Raise (LibError "ValueError")) (Ret "").

(** The direct answer "42". *)
Definition reply_42 : Response := plain "" (Some "42").
Definition env_42 : Env := env_const (Ret reply_42) (Ret "").

(** A plain abstract as the reply to every search. *)
Definition env_earth : Env :=
  env_const (Ret (plain "Earth is a planet." None)) (Ret "").

(** A disambiguation reply whose detail page parses to a result that
    holds nothing. *)
Definition empty_result : Response := plain "" None.
Definition env_detail_parsed : Env := {|
  ddg_query := fun _ => Ret (disambiguation_of mercury);
  requests_get := fun _ => Ret "<DuckDuckGoResponse/>";
  parse_results := fun _ => Ret empty_result |}.

(** A related topic that came without text and without url. *)
Definition bare_topic : Related := {| related_text := None; related_url := None |}.
Definition env_bare_disambiguation : Env :=
  env_const (Ret (disambiguation_of bare_topic)) (Ret "").
Definition env_bare_related : Env :=
  env_const (Ret {| rtype := "answer"; related := [bare_topic];
                    abstract_text := ""; answer := None |}) (Ret "").

(* ================================================================= *)
(** ** [__init__]: the order of the skill's vocabulary *)

(** [key(x) <= key(y)] for the sort key [lambda x: (-len(x), x)]: longer
    first, and among phrases of one length the smaller string first. *)
Definition vocab_key_le (x y : string) : bool :=
  Nat.ltb (String.length y) (String.length x)
  || (Nat.eqb (String.length x) (String.length y) && String.leb x y).

(** [sorted(vocab, key=...)].  The key holds the phrase itself, so equal
    keys are equal phrases and the result does not depend on the sorting
    method; it is built here by insertion. *)
Fixpoint insert_by_key (x : string) (l : list string) : list string :=
  match l with
  | [] => [x]
  | y :: l' => if vocab_key_le x y then x :: l else y :: insert_by_key x l'
  end.

Definition sorted_by_key (vocab : list string) : list string :=
  fold_right insert_by_key [] vocab.

(** [self.sorted_vocab] from [temp], the lines of the vocabulary file as
    [read_vocab_file] returns them (each one a list of words). *)
Definition init_sorted_vocab (temp : list (list string)) : list string :=
  let vocab := map (Py.join " ") temp in
  sorted_by_key vocab.

(* ================================================================= *)
(** ** Character conditions on texts *)

(** Every character of [s] satisfies [p]. *)
Fixpoint all_chars (p : ascii -> bool) (s : string) : bool :=
  match s with
  | EmptyString => true
  | String c s' => p c && all_chars p s'
  end.

(** No whitespace in [s]. *)
Definition no_space (s : string) : bool :=
  all_chars (fun c => negb (Py.is_space c)) s.

(** None of the characters [chars] in [s]. *)
Definition free_of (chars s : string) : bool :=
  all_chars (fun c => negb (Py.char_in c chars)) s.

(** The last character, read structurally (equal to [Py.last_char]). *)
Fixpoint final_char (s : string) : option ascii :=
  match s with
  | EmptyString => None
  | String c EmptyString => Some c
  | String _ s' => final_char s'
  end.

(** A string of [n] periods. *)
Fixpoint dots (n : nat) : string :=
  match n with
  | O => EmptyString
  | S k => String "." (dots k)
  end.

(** The answer held so far in [CQS_match_query_phrase], if any, is what
    [query_ddg] returned for some suffix of the query. *)
Definition answer_from_suffix (fuel : nat) (env : Env) (cfg : Config)
  (query : string) (answer : option string) : Prop :=
  forall a, answer = Some a ->
  exists p topic,
    query = p ++ topic /\
    outcome (query_ddg fuel env cfg topic) = Ret (Some a).

(* ================================================================= *)
(** ** Strings: slicing and prefixes *)

Section Slices.

Lemma take_drop (n : nat) (s : string) : Py.take n s ++ Py.drop n s = s.
Proof.
  revert s; induction n as [|n IH]; intros [|c s]; simpl; try reflexivity.
  now rewrite IH.
Qed.

Lemma take_app_length (t r : string) : Py.take (String.length t) (t ++ r) = t.
Proof. induction t as [|c t IH]; simpl; [now destruct r | now rewrite IH]. Qed.

Lemma drop_app_length (t r : string) : Py.drop (String.length t) (t ++ r) = r.
Proof. induction t as [|c t IH]; simpl; auto. Qed.

Lemma startswith_true (t q : string) :
  Py.startswith t q = true -> q = t ++ Py.drop (String.length t) q.
Proof.
  unfold Py.startswith; intros H.
  apply String.eqb_eq in H.
  rewrite <- H at 1. now rewrite take_drop.
Qed.

Lemma startswith_app (t r : string) : Py.startswith t (t ++ r) = true.
Proof. unfold Py.startswith. rewrite take_app_length. apply String.eqb_refl. Qed.

Lemma startswith_iff (t q : string) :
  Py.startswith t q = true <-> exists r, q = t ++ r.
Proof.
  split.
  - intros H; eexists; now apply startswith_true.
  - intros [r ->]; apply startswith_app.
Qed.

Lemma app_empty_r (s : string) : s ++ "" = s.
Proof. induction s as [|c s IH]; simpl; [reflexivity | now rewrite IH]. Qed.

Lemma app_assoc_s (a b c : string) : (a ++ b) ++ c = a ++ b ++ c.
Proof. induction a as [|x a IH]; simpl; [reflexivity | now rewrite IH]. Qed.

Lemma rev_app (a b : string) : Py.rev (a ++ b) = Py.rev b ++ Py.rev a.
Proof.
  induction a as [|x a IH]; simpl.
  - now rewrite app_empty_r.
  - now rewrite IH, app_assoc_s.
Qed.

Lemma last_char_snoc (s : string) (c : ascii) :
  Py.last_char (s ++ String c "") = Some c.
Proof. unfold Py.last_char. now rewrite rev_app. Qed.

End Slices.

(* ================================================================= *)
(** ** [str.replace] unfolds at the leftmost occurrence *)

Section Replace.

Variables old new : string.

Lemma replace_scan_skip (n : nat) (s : string) :
  Py.replace_scan old new n s = Py.replace_scan old new 0 (Py.drop n s).
Proof.
  revert n; induction s as [|c s IH]; intros [|n]; simpl; try reflexivity.
  apply IH.
Qed.

Hypothesis old_nonempty : old <> "".

Lemma replace_is_scan (s : string) :
  Py.replace old new s = Py.replace_scan old new 0 s.
Proof. unfold Py.replace. destruct old; [contradiction | reflexivity]. Qed.

Lemma startswith_nonempty_nil : Py.startswith old "" = false.
Proof.
  unfold Py.startswith. destruct old as [|c o]; [contradiction|].
  reflexivity.
Qed.

Lemma replace_unfold (s : string) :
  Py.replace old new s =
  match find_occ old s with
  | Some i =>
      Py.take i s ++ new ++ Py.replace old new (Py.drop (i + String.length old) s)
  | None => s
  end.
Proof.
  rewrite replace_is_scan.
  induction s as [|c s IH].
  - simpl. now rewrite startswith_nonempty_nil.
  - cbn [find_occ Py.replace_scan].
    destruct (Py.startswith old (String c s)) eqn:E.
    + cbn [Py.take String.append Nat.add].
      rewrite replace_scan_skip, replace_is_scan.
      destruct old as [|o os]; [contradiction|].
      cbn [String.length Nat.sub Py.drop]. now rewrite Nat.sub_0_r.
    + rewrite IH. destruct (find_occ old s) as [i|]; cbn [option_map].
      * rewrite !replace_is_scan. reflexivity.
      * reflexivity.
Qed.

End Replace.

(* ================================================================= *)
(** ** [extract_topic]: first match in list order *)

Section Topic.

Lemma find_app_first {A} (f : A -> bool) (l1 l2 : list A) :
  find f (l1 ++ l2)%list =
  match find f l1 with Some x => Some x | None => find f l2 end.
Proof.
  induction l1 as [|x l1 IH]; simpl; [reflexivity|].
  destruct (f x); [reflexivity | exact IH].
Qed.

Lemma first_match_app (l1 l2 : list string) (q : string) :
  first_match (l1 ++ l2)%list q =
  match first_match l1 q with Some r => Some r | None => first_match l2 q end.
Proof.
  unfold first_match. rewrite find_app_first.
  destruct (find _ l1); reflexivity.
Qed.

Lemma topic_articles_first (noun verb : string) (arts : list string) (q : string) :
  topic_articles noun verb arts q =
  first_match (map (test_prefix noun verb) arts) q.
Proof.
  induction arts as [|a arts IH]; [reflexivity|].
  unfold first_match in *; simpl.
  destruct (Py.startswith (test_prefix noun verb a) q); [reflexivity | exact IH].
Qed.

Lemma topic_verbs_first (noun : string) (verbs arts : list string) (q : string) :
  topic_verbs noun verbs arts q =
  first_match (flat_map (fun verb => map (test_prefix noun verb) arts) verbs) q.
Proof.
  induction verbs as [|v verbs IH]; [reflexivity|].
  cbn [topic_verbs flat_map].
  rewrite first_match_app, <- topic_articles_first, IH. reflexivity.
Qed.

Lemma topic_nouns_first (nouns verbs arts : list string) (q : string) :
  topic_nouns nouns verbs arts q =
  first_match
    (flat_map (fun noun =>
       flat_map (fun verb => map (test_prefix noun verb) arts) verbs) nouns) q.
Proof.
  induction nouns as [|n nouns IH]; [reflexivity|].
  cbn [topic_nouns flat_map].
  rewrite first_match_app, <- topic_verbs_first, IH. reflexivity.
Qed.

Lemma first_match_suffix (tests : list string) (q r : string) :
  first_match tests q = Some r -> exists p, q = p ++ r.
Proof.
  unfold first_match.
  destruct (find _ tests) as [t|] eqn:F; [|discriminate].
  intros [= <-]. apply find_some in F as [_ F].
  exists t. now apply startswith_true.
Qed.

(** C5 (as amended). [extract_topic] tries the prefixes
    [word ++ verb ++ " " ++ article] for every question word, every question
    verb and every article form (each article followed by a space, then no
    article), in list order, and returns what follows the first one that
    starts the utterance; when none does it returns the utterance unchanged.
    Word and verb are joined with nothing between them: with words
    {"what"}, verbs {" is"}, articles {"a","the"} the utterance
    "what is the earth" gives "earth", while with the verb written "is" the
    same utterance comes back unchanged; "earth" gives "earth" with both. *)
Theorem extract_topic_first_combination :
  (forall cfg query,
     extract_topic cfg query =
     match find (fun t => Py.startswith t query) (combinations cfg) with
     | Some t => Py.drop (String.length t) query
     | None => query
     end) /\
  combinations cfg_spaced_verb = ["what is a "; "what is the "; "what is "] /\
  extract_topic cfg_spaced_verb "what is the earth" = "earth" /\
  extract_topic cfg_spaced_verb "earth" = "earth" /\
  combinations cfg_bare_verb = ["whatis a "; "whatis the "; "whatis "] /\
  extract_topic cfg_bare_verb "what is the earth" = "what is the earth" /\
  extract_topic cfg_bare_verb "earth" = "earth".
Proof.
  split; [|repeat split; reflexivity].
  intros cfg query. unfold extract_topic, combinations.
  rewrite topic_nouns_first. unfold first_match.
  destruct (find _ _); reflexivity.
Qed.

(** C5, as worded, fails: with question words {"what"}, verbs {"is"} and
    articles {"a","the"}, "what is the earth" does not give "earth". *)
Lemma extract_topic_bare_verb_no_match :
  extract_topic cfg_bare_verb "what is the earth" <> "earth".
Proof. vm_compute. discriminate. Qed.

(** C10. The result of [extract_topic] is a suffix of the query: the query
    is some prefix followed by exactly the result. *)
Theorem extract_topic_suffix (cfg : Config) (query : string) :
  exists p, query = p ++ extract_topic cfg query.
Proof.
  unfold extract_topic. rewrite topic_nouns_first.
  destruct (first_match _ query) as [r|] eqn:E.
  - exact (first_match_suffix _ _ _ E).
  - now exists "".
Qed.

End Topic.

(* ================================================================= *)
(** ** [split_sentences] *)

Section Sentences.

(** C7. The initial at the very start of the text has no space before it,
    so the pattern does not protect it: the Tolkien sentence is cut after
    "J" (the two "R." inside are kept).  "Earth is a planet." gives the one
    sentence without its period. *)
Theorem split_sentences_initials :
  split_sentences "J. R. R. Tolkien was an author."
    = Ret ["J"; "R. R. Tolkien was an author"] /\
  split_sentences "Earth is a planet." = Ret ["Earth is a planet"].
Proof. split; reflexivity. Qed.

(** C6. [sents[-1][-1]] raises [IndexError] when the last piece is empty:
    on the empty text, on a text that ends in ". ", and from there out of
    [query_ddg] when such a text is the abstract.  A one-character text is
    harmless. *)
Theorem split_sentences_index_error :
  split_sentences "" = Raise IndexError /\
  split_sentences "Hi. " = Raise IndexError /\
  split_sentences "Really? " = Raise IndexError /\
  outcome (query_ddg 0 (env_const (Ret (plain "Hi. " None)) (Ret ""))
                     cfg_spaced_verb "hi") = Raise IndexError /\
  split_sentences "a" = Ret ["a"] /\
  split_sentences "." = Ret [""].
Proof. repeat split; reflexivity. Qed.

End Sentences.

(* ================================================================= *)
(** ** Terminal punctuation *)

Section Punctuation.

Lemma rbind_ret_inv {A B} (r : res A) (f : A -> res B) (b : B) :
  rbind r f = Ret b -> exists a, r = Ret a /\ f a = Ret b.
Proof. destruct r; simpl; intros H; try discriminate. now exists a. Qed.

Lemma ends_in_terminal_nonempty (s : string) :
  ends_in_terminal s = true -> s <> "".
Proof. intros H ->. discriminate. Qed.

Lemma ensure_punctuation_terminal (ans a : string) :
  ensure_punctuation ans = Ret a -> ends_in_terminal a = true.
Proof.
  unfold ensure_punctuation, ends_in_terminal.
  destruct (Py.last_char ans) as [c|] eqn:L; [|discriminate].
  destruct (Py.char_in c ".?!") eqn:C; intros [= <-].
  - now rewrite L.
  - now rewrite last_char_snoc.
Qed.

(** Whatever [format_related] returns ends in terminal punctuation. *)
Lemma format_related_terminal fuel cfg abstract query a :
  format_related fuel cfg abstract query = Ret a -> ends_in_terminal a = true.
Proof.
  unfold format_related. intros H.
  apply rbind_ret_inv in H as [ans [_ H]].
  destruct (match search_category 0 ans with
            | Some (start, group) => _ | None => _ end) as [category ans'].
  now apply ensure_punctuation_terminal in H.
Qed.

(** The direct-answer string ends in a period. *)
Lemma direct_answer_terminal (query text : string) :
  ends_in_terminal (query ++ is_verb ++ text ++ ".") = true.
Proof.
  replace (query ++ is_verb ++ text ++ ".")
    with ((query ++ is_verb ++ text) ++ ".")
    by now rewrite !app_assoc_s.
  unfold ends_in_terminal. now rewrite last_char_snoc.
Qed.

(** Off the abstract branch the invariant holds: with an empty abstract,
    every string [select_answer] returns ends in terminal punctuation (and
    so is not empty). *)
Lemma select_answer_terminal fuel cfg query response a :
  abstract_text response = "" ->
  select_answer fuel cfg query response = Ret (Some a) ->
  ends_in_terminal a = true.
Proof.
  unfold select_answer. intros ->. cbn [String.length Nat.ltb Nat.leb].
  assert (Hrel :
    match related response with
    | [] => Ret None
    | r0 :: _ =>
        match related_text r0 with
        | None => Raise TypeError
        | Some text =>
            if Nat.ltb 0 (String.length text)
            then rbind (split_sentences text) (fun sents =>
                 match sents with
                 | related :: _ =>
                     rbind (format_related fuel cfg related query)
                           (fun a => Ret (Some a))
                 | [] => Raise IndexError
                 end)
            else Ret None
        end
    end = Ret (Some a) -> ends_in_terminal a = true).
  { destruct (related response) as [|r0 rest]; [discriminate|].
    destruct (related_text r0) as [text|]; [|discriminate].
    destruct (Nat.ltb 0 _); [|discriminate].
    intros H. apply rbind_ret_inv in H as [sents [_ H]].
    destruct sents as [|first sents']; [discriminate|].
    apply rbind_ret_inv in H as [b [Hf [= <-]]].
    exact (format_related_terminal _ _ _ _ _ Hf). }
  destruct (answer response) as [text|]; [|exact Hrel].
  destruct (negb (String.eqb text "") && negb (Py.contains "HASH" text));
    [|exact Hrel].
  intros [= <-]. apply direct_answer_terminal.
Qed.

(** C1. On the abstract branch the sentences come back from
    [split_sentences] without the final mark and are joined as they are:
    the answer to "earth" is "Earth is a planet", with no terminal
    punctuation, and an abstract that is a lone period gives the empty
    string as the answer. *)
Theorem abstract_answer_unpunctuated :
  query_ddg 0 (env_const (Ret (plain "Earth is a planet." None)) (Ret ""))
            cfg_spaced_verb "earth"
    = ([EvQuery "earth"], Ret (Some "Earth is a planet")) /\
  ends_in_terminal "Earth is a planet" = false /\
  outcome (query_ddg 0 (env_const (Ret (plain "." None)) (Ret ""))
                     cfg_spaced_verb "earth") = Ret (Some "").
Proof. repeat split; reflexivity. Qed.

End Punctuation.

(* ================================================================= *)
(** ** [query_ddg]: outcomes and outbound calls *)

Section Query.

Variables (fuel : nat) (env : Env) (cfg : Config).

Lemma length_zero_empty (s : string) :
  Nat.eqb (String.length s) 0 = String.eqb s "".
Proof. now destruct s. Qed.

Lemma trace_bind {A B} (m : M A) (f : A -> M B) :
  trace (bind m f) =
  (trace m ++ match outcome m with Ret a => trace (f a) | _ => [] end)%list.
Proof.
  destruct m as [t [a|e|]]; simpl.
  - now destruct (f a).
  - now rewrite app_nil_r.
  - now rewrite app_nil_r.
Qed.

Lemma outcome_bind {A B} (m : M A) (f : A -> M B) :
  outcome (bind m f) =
  match outcome m with
  | Ret a => outcome (f a)
  | Raise e => Raise e
  | OutOfFuel => OutOfFuel
  end.
Proof. destruct m as [t [a|e|]]; simpl; [now destruct (f a) | easy | easy]. Qed.

(** The disambiguation step makes no call at all, or one detail fetch. *)
Lemma disambiguate_trace (response : Response) :
  trace (disambiguate env response) = [] \/
  exists url, trace (disambiguate env response) = [EvGet url].
Proof.
  unfold disambiguate.
  destruct (String.eqb _ _); [|now left].
  destruct (related response) as [|r0 rest]; [now left|].
  destruct (related_url r0) as [url|]; [|now left].
  right. exists (url ++ "?o=x").
  rewrite trace_bind. unfold emit, trace, outcome; simpl.
  destruct (requests_get env _) as [[|c body]|e|]; reflexivity.
Qed.

(** An empty detail body leaves the original result in place. *)
Lemma disambiguate_empty_body (response : Response) (r0 : Related) rest url :
  related response = r0 :: rest ->
  related_url r0 = Some url ->
  requests_get env (url ++ "?o=x") = Ret "" ->
  outcome (disambiguate env response) = Ret response.
Proof.
  intros Hrel Hurl Hget. unfold disambiguate.
  destruct (String.eqb _ _); [|reflexivity].
  rewrite Hrel, Hurl, outcome_bind. unfold emit, outcome; simpl.
  now rewrite Hget.
Qed.

(** A detail fetch that raises ends [disambiguate] with that exception. *)
Lemma disambiguate_fetch_raises (response : Response) (r0 : Related) rest url e :
  rtype response = "disambiguation" ->
  related response = r0 :: rest ->
  related_url r0 = Some url ->
  requests_get env (url ++ "?o=x") = Raise e ->
  outcome (disambiguate env response) = Raise e.
Proof.
  intros Hty Hrel Hurl Hget. unfold disambiguate.
  rewrite Hty, Hrel, Hurl; simpl. unfold bind, emit. now rewrite Hget.
Qed.

(** A first related topic without a url: [None + "?o=x"] raises
    [TypeError] before any fetch is made. *)
Lemma disambiguate_missing_url (response : Response) (r0 : Related) rest :
  rtype response = "disambiguation" ->
  related response = r0 :: rest ->
  related_url r0 = None ->
  disambiguate env response = ([], Raise TypeError).
Proof.
  intros Hty Hrel Hurl. unfold disambiguate.
  now rewrite Hty, Hrel, Hurl.
Qed.

(** A first related topic without a text, reached by the selection:
    [len(None)] raises [TypeError]. *)
Lemma select_answer_missing_text (query : string) (response : Response)
  (r0 : Related) rest :
  answer response = None ->
  abstract_text response = "" ->
  related response = r0 :: rest ->
  related_text r0 = None ->
  select_answer fuel cfg query response = Raise TypeError.
Proof.
  intros Ha Hab Hrel Ht. unfold select_answer.
  now rewrite Ha, Hab, Hrel, Ht.
Qed.

(** After a primary search that returned, [query_ddg] is the
    disambiguation step followed by the selection. *)
Lemma query_ddg_returned (query : string) (response : Response) :
  query <> "" ->
  ddg_query env query = Ret response ->
  query_ddg fuel env cfg query =
  (response <- emit (EvQuery query) (Ret response) ;;
   response <- disambiguate env response ;;
   lift (select_answer fuel cfg query response)).
Proof.
  intros Hq Hr. unfold query_ddg.
  rewrite length_zero_empty.
  destruct (String.eqb query "") eqn:E;
    [apply String.eqb_eq in E; contradiction|].
  now rewrite Hr.
Qed.

(** The calls of one [query_ddg]: none on the empty topic; otherwise the
    primary search, followed by at most one detail fetch. *)
Lemma query_ddg_trace (query : string) :
  exists rest,
    trace (query_ddg fuel env cfg query) =
      (if String.eqb query "" then [] else EvQuery query :: rest) /\
    (rest = [] \/ exists url, rest = [EvGet url]).
Proof.
  unfold query_ddg. rewrite length_zero_empty.
  destruct (String.eqb query ""); [exists []; now split; [|left]|].
  destruct (ddg_query env query) as [response|e|];
    [|exists []; now split; [|left]|exists []; now split; [|left]].
  cbv beta iota. rewrite trace_bind.
  change (trace (emit (EvQuery query) (Ret response))) with [EvQuery query].
  change (outcome (emit (EvQuery query) (Ret response))) with (Ret response).
  cbv beta iota. rewrite trace_bind.
  assert (L : forall r : res (option string), trace (lift r) = [])
    by reflexivity.
  destruct (disambiguate_trace response) as [-> | [url ->]];
    destruct (outcome (disambiguate env response)); rewrite ?L;
    solve [ exists []; split; [reflexivity | now left]
          | exists [EvGet url]; split; [reflexivity | right; now exists url] ].
Qed.

(** One call of [query_ddg]: at most one primary search and at most two
    HTTP calls. *)
Lemma query_ddg_calls (query : string) :
  primary_calls (trace (query_ddg fuel env cfg query)) <= 1 /\
  http_calls (trace (query_ddg fuel env cfg query)) <= 2.
Proof.
  destruct (query_ddg_trace query) as [rest [-> Hrest]].
  destruct (String.eqb query ""), Hrest as [-> | [url ->]];
    unfold primary_calls, http_calls; simpl; lia.
Qed.

(** The topics searched by one [query_ddg]: the query itself, unless it is
    empty. *)
Lemma query_ddg_queried (query : string) :
  queried (trace (query_ddg fuel env cfg query)) =
  if String.eqb query "" then [] else [query].
Proof.
  destruct (query_ddg_trace query) as [rest [-> Hrest]].
  destruct (String.eqb query ""), Hrest as [-> | [url ->]]; reflexivity.
Qed.

(** The speech calls of the intent handler add no outbound call: its
    trace is the one of its [query_ddg], then speech events only. *)
Lemma handle_ask_ducky_trace (utt : string) :
  exists speech,
    trace (handle_ask_ducky fuel env cfg (Some utt)) =
      (trace (query_ddg fuel env cfg (ask_ducky_topic cfg utt)) ++ speech)%list
    /\ filter is_http speech = [] /\ queried speech = [].
Proof.
  unfold handle_ask_ducky. rewrite trace_bind.
  destruct (outcome (query_ddg fuel env cfg (ask_ducky_topic cfg utt)))
    as [[r|]|e|].
  - eexists; split; [reflexivity|]. now split.
  - exists []; now repeat split.
  - exists []; now repeat split.
  - exists []; now repeat split.
Qed.

Lemma queried_app (t1 t2 : list event) :
  queried (t1 ++ t2) = (queried t1 ++ queried t2)%list.
Proof.
  induction t1 as [|[q|u|n|x] t1 IH]; simpl; rewrite ?IH; reflexivity.
Qed.

(** The intent handler makes at most two HTTP calls, at most one of them
    a primary search. *)
Lemma handle_ask_ducky_calls (utterance : option string) :
  primary_calls (trace (handle_ask_ducky fuel env cfg utterance)) <= 1 /\
  http_calls (trace (handle_ask_ducky fuel env cfg utterance)) <= 2.
Proof.
  destruct utterance as [utt|];
    [|unfold primary_calls, http_calls; simpl; lia].
  destruct (handle_ask_ducky_trace utt) as [speech [-> [Hh Hq]]].
  destruct (query_ddg_calls (ask_ducky_topic cfg utt)) as [Hp Ht].
  unfold primary_calls, http_calls in *.
  rewrite !filter_app, !length_app, Hh.
  assert (Hs : filter is_primary speech = []).
  { clear -Hh. induction speech as [|[q|u|n|x] sp IH]; simpl in *;
      try discriminate; auto. }
  rewrite Hs. simpl. lia.
Qed.

(** C8 (as amended). The topic the intent handler searches for is the
    extracted topic with "an ", then "a ", then "the " deleted by
    [str.replace]: EVERY occurrence that does not overlap an earlier one,
    wherever it stands in the string (the deletion is not tied to the start
    of the string, and it is not limited to the first occurrence). *)
Theorem ask_ducky_strips_every_occurrence (utt : string) :
  let cleaned :=
    Py.strip (fold_left (fun u voc => Py.replace voc "" u) (sorted_vocab cfg) utt) in
  let topic :=
    Py.replace "the " "" (Py.replace "a " "" (Py.replace "an " ""
      (extract_topic cfg cleaned))) in
  queried (trace (handle_ask_ducky fuel env cfg (Some utt))) =
    (if String.eqb topic "" then [] else [topic]) /\
  removes_every_occurrence "an " /\
  removes_every_occurrence "a " /\
  removes_every_occurrence "the ".
Proof.
  intros cleaned topic. split.
  - destruct (handle_ask_ducky_trace utt) as [speech [-> [_ Hq]]].
    rewrite queried_app, Hq, app_nil_r. apply query_ddg_queried.
  - repeat split; intros s; apply replace_unfold; discriminate.
Qed.

(** C3. With an empty topic, or with a primary search that raises,
    [query_ddg] returns [None] and nothing is raised; on the empty topic it
    makes no call at all, otherwise the one search that raised. *)
Theorem query_ddg_no_answer (query : string)
  (H : query = "" \/ exists e, ddg_query env query = Raise e) :
  outcome (query_ddg fuel env cfg query) = Ret None /\
  trace (query_ddg fuel env cfg query) =
    (if String.eqb query "" then [] else [EvQuery query]).
Proof.
  unfold query_ddg. rewrite length_zero_empty.
  destruct (String.eqb query "") eqn:E; [now split|].
  destruct H as [-> | [e He]]; [discriminate|].
  now rewrite He.
Qed.

(** C4 (as amended). On the result [response'] that the disambiguation
    step leaves: a direct answer that is present, not empty and does not
    CONTAIN "HASH" gives "<topic> is <answer>."; failing that, a non-empty
    abstract gives its sentences joined with ". "; failing that, a
    non-empty text of the first related topic gives its first sentence
    passed through [format_related]; failing that (no related topic, or a
    first related topic whose text is the empty string), no answer.  An
    [IndexError] of [split_sentences] or [format_related] is passed on.
    Nothing is said here of a first related topic that has no text at
    all. *)
Theorem answer_priority (query : string) (response response' : Response)
  (t : list event)
  (Hq : query <> "")
  (Hr : ddg_query env query = Ret response)
  (Hd : disambiguate env response = (t, Ret response')) :
  let out := outcome (query_ddg fuel env cfg query) in
  let usable text := text <> "" /\ Py.contains "HASH" text = false in
  (forall text, answer response' = Some text -> usable text ->
     out = Ret (Some (query ++ " is " ++ text ++ "."))) /\
  ((forall text, answer response' = Some text -> ~ usable text) ->
   (abstract_text response' <> "" ->
      out = rbind (split_sentences (abstract_text response'))
                  (fun sents => Ret (Some (Py.join ". " sents)))) /\
   (abstract_text response' = "" ->
      match related response' with
      | r0 :: _ =>
          forall text, related_text r0 = Some text ->
          (text <> "" ->
             out = rbind (split_sentences text) (fun sents =>
                   match sents with
                   | first :: _ =>
                       rbind (format_related fuel cfg first query)
                             (fun a => Ret (Some a))
                   | [] => Raise IndexError
                   end)) /\
          (text = "" -> out = Ret None)
      | [] => out = Ret None
      end)).
Proof.
  intros out usable.
  assert (Hout : out = select_answer fuel cfg query response').
  { unfold out. rewrite (query_ddg_returned _ _ Hq Hr).
    rewrite !outcome_bind. unfold emit at 1. cbn [outcome snd].
    now rewrite Hd. }
  rewrite Hout. unfold select_answer. split.
  - intros text Ha [Hne Hh]. rewrite Ha, Hh.
    apply String.eqb_neq in Hne. now rewrite Hne.
  - intros Hno.
    assert (D : match answer response' with
                | Some text =>
                    negb (String.eqb text "") && negb (Py.contains "HASH" text)
                | None => false
                end = false).
    { destruct (answer response') as [text|] eqn:Ha; [|reflexivity].
      destruct (String.eqb text "") eqn:E; [reflexivity|].
      destruct (Py.contains "HASH" text) eqn:C; [reflexivity|].
      exfalso. apply (Hno text eq_refl). split; [|exact C].
      now apply String.eqb_neq. }
    rewrite D. split.
    + intros Ha. destruct (abstract_text response'); [contradiction|reflexivity].
    + intros ->. cbn [String.length Nat.ltb Nat.leb].
      destruct (related response') as [|r0 rest]; [reflexivity|].
      intros text ->. split.
      * intros Ht. destruct text; [contradiction|reflexivity].
      * now intros ->.
Qed.

End Query.

(* ================================================================= *)
(** ** The claims at concrete inputs *)

(** The empty topic, and the topic '1+1' on which the search raises. *)
Lemma query_ddg_no_answer_witness :
  (outcome (query_ddg 0 env_search_raises cfg_spaced_verb "") = Ret None /\
   trace (query_ddg 0 env_search_raises cfg_spaced_verb "") = []) /\
  (outcome (query_ddg 0 env_search_raises cfg_spaced_verb "1+1") = Ret None /\
   trace (query_ddg 0 env_search_raises cfg_spaced_verb "1+1") = [EvQuery "1+1"]).
Proof.
  split.
  - apply (query_ddg_no_answer 0 env_search_raises cfg_spaced_verb "").
    left; reflexivity.
  - apply (query_ddg_no_answer 0 env_search_raises cfg_spaced_verb "1+1").
    right; exists (LibError "ValueError"); reflexivity.
Defined.

(** The answer text "42" for the query "meaning of life". *)
Lemma answer_priority_witness :
  outcome (query_ddg 0 env_42 cfg_spaced_verb "meaning of life")
  = Ret (Some "meaning of life is 42.").
Proof.
  assert (Hq : "meaning of life" <> "") by discriminate.
  destruct (answer_priority 0 env_42 cfg_spaced_verb "meaning of life"
              reply_42 reply_42 [] Hq eq_refl eq_refl) as [Hdirect _].
  apply (Hdirect "42"); [reflexivity|].
  split; [discriminate | reflexivity].
Defined.

(** C4, as worded, fails: a direct answer that is present, not empty and
    different from "HASH" is still passed over when "HASH" occurs inside
    it; the abstract is used instead. *)
Lemma direct_answer_containing_hash_skipped :
  ~ (forall fuel env cfg query response text,
       query <> "" ->
       ddg_query env query = Ret response ->
       rtype response <> "disambiguation" ->
       answer response = Some text -> text <> "" -> text <> "HASH" ->
       outcome (query_ddg fuel env cfg query)
       = Ret (Some (query ++ " is " ++ text ++ "."))).
Proof.
  intros H.
  specialize (H 0 (env_const (Ret hash_reply) (Ret "")) cfg_spaced_verb
                "sha1 hello" hash_reply _
                ltac:(discriminate) eq_refl ltac:(discriminate) eq_refl
                ltac:(discriminate) ltac:(discriminate)).
  vm_compute in H. discriminate.
Qed.

(** C8, as worded, fails: the handler deletes both occurrences of "a " in
    "banana and a mango", where deleting the first occurrence only would
    leave the second. *)
Lemma ask_ducky_strips_more_than_first :
  ask_ducky_topic cfg_spaced_verb "what is a banana and a mango"
    = "bananand mango" /\
  ask_ducky_topic_first_only cfg_spaced_verb "what is a banana and a mango"
    = "bananand a mango" /\
  ask_ducky_topic cfg_spaced_verb "what is a banana and a mango"
    <> ask_ducky_topic_first_only cfg_spaced_verb "what is a banana and a mango".
Proof. repeat split; vm_compute; discriminate. Qed.

(** C2. The detail fetch is not guarded: when it raises, [query_ddg] ends
    with that exception after the two calls, and so it does when the body
    does not parse.  Only the empty body falls back to the original result,
    whose first related topic then gives the answer. *)
Theorem detail_fetch_error_propagates :
  query_ddg 0 env_fetch_raises cfg_spaced_verb "mercury"
    = ([EvQuery "mercury"; EvGet "https://duckduckgo.com/Mercury_(planet)?o=x"],
       Raise (LibError "ConnectionError")) /\
  outcome (query_ddg 0 env_fetch_garbled cfg_spaced_verb "mercury")
    = Raise (LibError "ParseError") /\
  outcome (query_ddg 0 env_fetch_empty cfg_spaced_verb "mercury")
    = Ret (Some "Mercury, is a planet in the Solar System.").
Proof. repeat split; reflexivity. Qed.

(** C9. In [CQS_match_query_phrase] the [break] leaves the article loop
    only: with the verbs " is" and " is called", the query
    "what is called the earth" is matched under both verbs and searched
    twice, and with a disambiguation reply each search is followed by a
    detail fetch: four HTTP calls in one invocation. *)
Theorem common_query_searches_twice :
  queried (trace (CQS_match_query_phrase 0 env_fetch_empty cfg_two_verbs
                    "what is called the earth"))
    = ["called the earth"; "earth"] /\
  primary_calls (trace (CQS_match_query_phrase 0 env_fetch_empty cfg_two_verbs
                          "what is called the earth")) = 2 /\
  http_calls (trace (CQS_match_query_phrase 0 env_fetch_empty cfg_two_verbs
                       "what is called the earth")) = 4.
Proof. repeat split; reflexivity. Qed.

(* ================================================================= *)
(** ** More on strings: lengths, absent patterns *)

Section Absent.

Lemma strlen_app (a b : string) :
  String.length (a ++ b) = String.length a + String.length b.
Proof. induction a as [|c a IH]; simpl; [reflexivity | now rewrite IH]. Qed.

Lemma length_rev (s : string) : String.length (Py.rev s) = String.length s.
Proof.
  induction s as [|c s IH]; simpl; [reflexivity|].
  rewrite strlen_app, IH. simpl. lia.
Qed.

Lemma rev_rev (s : string) : Py.rev (Py.rev s) = s.
Proof.
  induction s as [|c s IH]; simpl; [reflexivity|].
  now rewrite rev_app, IH.
Qed.

Lemma length_drop (n : nat) (s : string) :
  String.length (Py.drop n s) = String.length s - n.
Proof.
  revert s; induction n as [|n IH]; intros [|c s]; simpl; auto.
Qed.

Lemma last_n_app (a b : string) : Py.last_n (String.length b) (a ++ b) = b.
Proof.
  unfold Py.last_n. rewrite strlen_app.
  replace (String.length a + String.length b - String.length b)
    with (String.length a) by lia.
  apply drop_app_length.
Qed.

Lemma all_chars_app (p : ascii -> bool) (a b : string) :
  all_chars p (a ++ b) = all_chars p a && all_chars p b.
Proof.
  induction a as [|c a IH]; simpl; [reflexivity|].
  now rewrite IH, andb_assoc.
Qed.

Lemma all_chars_char_in (p : ascii -> bool) (s : string) (c : ascii) :
  all_chars p s = true -> Py.char_in c s = true -> p c = true.
Proof.
  induction s as [|d s IH]; simpl; [discriminate|].
  intros Hp Hc. apply andb_true_iff in Hp as [Hd Hs].
  apply orb_true_iff in Hc as [Hc|Hc]; [|now apply IH].
  apply Ascii.eqb_eq in Hc. now subst.
Qed.

(** A pattern holding a character that the text has not does not occur
    in the text. *)
Lemma find_occ_absent (p : ascii -> bool) (old s : string) (c : ascii) :
  Py.char_in c old = true -> p c = false ->
  all_chars p s = true -> find_occ old s = None.
Proof.
  intros Hc Hpc.
  assert (Hno : forall t, all_chars p t = true -> Py.startswith old t = false).
  { intros t Ht. destruct (Py.startswith old t) eqn:E; [|reflexivity].
    apply startswith_true in E. rewrite E, all_chars_app in Ht.
    apply andb_true_iff in Ht as [Ht _].
    rewrite (all_chars_char_in _ _ _ Ht Hc) in Hpc. discriminate. }
  induction s as [|d s IH]; intros Hs; cbn [find_occ].
  - now rewrite (Hno "" Hs).
  - rewrite (Hno _ Hs). simpl in Hs. apply andb_true_iff in Hs as [_ Hs].
    now rewrite (IH Hs).
Qed.

Lemma find_occ_none_tail (old : string) (c : ascii) (s : string) :
  find_occ old (String c s) = None ->
  Py.startswith old (String c s) = false /\ find_occ old s = None.
Proof.
  cbn [find_occ]. destruct (Py.startswith old (String c s)); [discriminate|].
  destruct (find_occ old s); [discriminate | now split].
Qed.

(** Without an occurrence of the separator, [split] gives the text as its
    one piece. *)
Lemma split_scan_absent (sep cur s : string) :
  find_occ sep s = None -> Py.split_scan sep 0 cur s = [cur ++ s].
Proof.
  revert cur; induction s as [|c s IH]; intros cur H.
  - simpl. now rewrite app_empty_r.
  - apply find_occ_none_tail in H as [Hs Ht].
    cbn [Py.split_scan]. rewrite Hs, (IH _ Ht), app_assoc_s. reflexivity.
Qed.

Lemma split_absent (sep s : string) :
  find_occ sep s = None -> Py.split sep s = [s].
Proof. intros H. unfold Py.split. now rewrite split_scan_absent. Qed.

(** Without an occurrence of the pattern, [replace] changes nothing. *)
Lemma replace_absent (old new s : string) :
  old <> "" -> find_occ old s = None -> Py.replace old new s = s.
Proof. intros Ho H. rewrite (replace_unfold old new Ho), H. reflexivity. Qed.

(** A non-empty text without whitespace is its own single word. *)
Lemma split_ws_scan_no_space (cur s : string) :
  no_space s = true -> cur ++ s <> "" -> Py.split_ws_scan cur s = [cur ++ s].
Proof.
  unfold no_space. revert cur; induction s as [|c s IH]; intros cur Hs Hne.
  - rewrite app_empty_r in *. simpl. destruct cur; [contradiction|reflexivity].
  - simpl in Hs. apply andb_true_iff in Hs as [Hc Hs].
    apply negb_true_iff in Hc. cbn [Py.split_ws_scan]. rewrite Hc.
    rewrite IH; [now rewrite app_assoc_s | exact Hs |].
    rewrite app_assoc_s. exact Hne.
Qed.

Lemma split_ws_no_space (s : string) :
  no_space s = true -> s <> "" -> Py.split_ws s = [s].
Proof. intros Hs Hne. unfold Py.split_ws. now rewrite split_ws_scan_no_space. Qed.

Lemma char_in_app (c : ascii) (a b : string) :
  Py.char_in c (a ++ b) = Py.char_in c a || Py.char_in c b.
Proof.
  induction a as [|x a IH]; simpl; [reflexivity|].
  now rewrite IH, orb_assoc.
Qed.

Lemma last_char_some (s : string) (c : ascii) :
  Py.last_char s = Some c -> exists a, s = a ++ String c "".
Proof.
  unfold Py.last_char. destruct (Py.rev s) as [|d r] eqn:E; [discriminate|].
  intros [= ->]. exists (Py.rev r).
  rewrite <- (rev_rev s), E. reflexivity.
Qed.

Lemma last_char_in (s : string) (c : ascii) :
  Py.last_char s = Some c -> Py.char_in c s = true.
Proof.
  intros H. apply last_char_some in H as [a ->].
  rewrite char_in_app. simpl. rewrite Ascii.eqb_refl. apply orb_true_r.
Qed.

Lemma last_char_nonempty (s : string) :
  s <> "" -> exists c, Py.last_char s = Some c.
Proof.
  intros Hne. unfold Py.last_char.
  destruct (Py.rev s) as [|d r] eqn:E; [|now exists d].
  exfalso. apply Hne. rewrite <- (rev_rev s), E. reflexivity.
Qed.

End Absent.

(* ================================================================= *)
(** ** [split_sentences] on ordinary text *)

Section PlainText.

Lemma split_scan_nonempty (sep : string) (k : nat) (cur s : string) :
  Py.split_scan sep k cur s <> [].
Proof.
  revert k cur; induction s as [|c s IH]; intros k cur; simpl; [discriminate|].
  destruct k as [|k]; [|apply IH].
  destruct (Py.startswith sep (String c s)); [discriminate | apply IH].
Qed.

Lemma protect_initials_no_dot (s : string) :
  free_of ".!?" s = true -> protect_initials s = s.
Proof.
  unfold free_of. induction s as [|a rest IH]; [reflexivity|].
  intros H. simpl in H. apply andb_true_iff in H as [_ Hrest].
  specialize (IH Hrest). cbn [protect_initials].
  destruct rest as [|c [|d rest']]; try (now rewrite IH).
  assert (Hd : Ascii.eqb d "." = false).
  { simpl in Hrest. apply andb_true_iff in Hrest as [_ Hrest].
    apply andb_true_iff in Hrest as [Hd _].
    apply negb_true_iff in Hd. simpl in Hd.
    now apply orb_false_iff in Hd as [Hd _]. }
  rewrite Hd, andb_false_r. now rewrite IH.
Qed.

(** A non-empty text holding none of ". ! ?" is one sentence, returned
    as it is. *)
Lemma split_sentences_plain (text : string) :
  text <> "" -> free_of ".!?" text = true -> split_sentences text = Ret [text].
Proof.
  intros Hne Hfree. unfold split_sentences.
  rewrite (protect_initials_no_dot _ Hfree).
  assert (A : forall old c, Py.char_in c old = true ->
                            Py.char_in c ".!?" = true ->
                            find_occ old text = None).
  { intros old c Hc Hp.
    apply (find_occ_absent (fun c => negb (Py.char_in c ".!?")) old text c);
      [exact Hc | now rewrite Hp | exact Hfree]. }
  rewrite (replace_absent "Inc." _ text) by
    (discriminate || exact (A "Inc." "."%char eq_refl eq_refl)).
  rewrite (replace_absent "! " _ text) by
    (discriminate || exact (A "! " "!"%char eq_refl eq_refl)).
  rewrite (replace_absent "? " _ text) by
    (discriminate || exact (A "? " "?"%char eq_refl eq_refl)).
  rewrite (split_absent ". " text) by exact (A ". " "."%char eq_refl eq_refl).
  cbn [map List.last].
  rewrite (replace_absent "~.~" _ text) by
    (discriminate || exact (A "~.~" "."%char eq_refl eq_refl)).
  destruct (last_char_nonempty text Hne) as [c Hc]. rewrite Hc.
  apply last_char_in in Hc.
  pose proof (all_chars_char_in _ _ _ Hfree Hc) as Hp.
  apply negb_true_iff in Hp. now rewrite Hp.
Qed.

(** X1. A non-empty text that holds none of the characters . ! ? passes
    through [split_sentences] unchanged, as the only sentence. *)
Theorem split_sentences_unpunctuated (text : string)
  (Hne : text <> "") (Hfree : free_of ".!?" text = true) :
  split_sentences text = Ret [text].
Proof. exact (split_sentences_plain text Hne Hfree). Qed.

(** X2. When [split_sentences] returns, the list is never empty: the
    [[0]] that [query_ddg] applies to it cannot raise. *)
Theorem split_sentences_never_empty (text : string) (sents : list string)
  (H : split_sentences text = Ret sents) : sents <> [].
Proof.
  unfold split_sentences in H.
  set (pieces := map _ (Py.split ". " _)) in H.
  assert (Hp : pieces <> []).
  { unfold pieces, Py.split. intros E. apply map_eq_nil in E.
    exact (split_scan_nonempty _ _ _ _ E). }
  destruct (Py.last_char (List.last pieces "")) as [c|]; [|discriminate].
  destruct (Py.char_in c ".!?"); injection H as <-; [|exact Hp].
  intros E. apply app_eq_nil in E as [_ E]. discriminate.
Qed.

(** X3. With no usable direct answer, an abstract that holds none of
    . ! ? is returned as the answer exactly as it came. *)
Theorem unpunctuated_abstract_returned (fuel : nat) (cfg : Config)
  (query : string) (response : Response)
  (Hans : answer response = None)
  (Hne : abstract_text response <> "")
  (Hfree : free_of ".!?" (abstract_text response) = true) :
  select_answer fuel cfg query response = Ret (Some (abstract_text response)).
Proof.
  unfold select_answer. rewrite Hans.
  destruct (abstract_text response) as [|c a] eqn:E; [contradiction|].
  cbn [String.length Nat.ltb Nat.leb].
  rewrite (split_sentences_plain _ Hne Hfree). reflexivity.
Qed.

End PlainText.

(* ================================================================= *)
(** ** [format_related]: what it returns, when it raises, when it hangs *)

Section Related.

Variables (fuel : nat) (cfg : Config).

Lemma insert_is_verb_no_words (articles : list string) (nq : nat) (ans : string) :
  insert_is_verb articles [] nq ans = ans.
Proof. induction articles as [|a rest IH]; simpl; auto. Qed.

Lemma dots_app (n m : nat) : dots (n + m) = dots n ++ dots m.
Proof. induction n as [|n IH]; simpl; [reflexivity | now rewrite IH]. Qed.

Lemma rev_dots (n : nat) : Py.rev (dots n) = dots n.
Proof.
  induction n as [|n IH]; simpl; [reflexivity|].
  rewrite IH. change (String "." "") with (dots 1).
  rewrite <- dots_app. now rewrite Nat.add_1_r.
Qed.

Lemma strip_dots_rev_dots (n : nat) : strip_dots_rev (dots n) = Raise IndexError.
Proof. induction n as [|n IH]; simpl; auto. Qed.

(** X4. Whatever [format_related] returns is not empty and ends in one of
    . ? ! *)
Theorem format_related_ends_sentence (abstract query a : string)
  (H : format_related fuel cfg abstract query = Ret a) :
  a <> "" /\ ends_in_terminal a = true.
Proof.
  pose proof (format_related_terminal _ _ _ _ _ H) as T.
  split; [now apply ends_in_terminal_nonempty | exact T].
Qed.

(** X5. [format_related] raises [IndexError] on the empty abstract (at
    [ans[-1]]) and on an abstract made of two or more periods only (the
    first [while] loop runs off the front of the string). *)
Theorem format_related_index_error (query : string) (n : nat) :
  format_related fuel cfg "" query = Raise IndexError /\
  format_related fuel cfg (dots (n + 2)) query = Raise IndexError.
Proof.
  split.
  - unfold format_related. cbn [Py.last_n String.length Nat.sub Py.drop
      String.eqb rbind search_category Py.split_ws Py.split_ws_scan].
    now rewrite insert_is_verb_no_words.
  - unfold format_related.
    replace (Py.last_n 2 (dots (n + 2))) with ".."
      by (rewrite dots_app; symmetry; exact (last_n_app (dots n) "..")).
    cbn [String.eqb Ascii.eqb Bool.eqb]. unfold untruncate, strip_dots.
    now rewrite rev_dots, strip_dots_rev_dots.
Qed.

End Related.

Section Hang.

Variables (cfg : Config) (w : string).

Hypothesis w_no_space : no_space w = true.
Hypothesis not_start_word : Py.mem (w ++ "ing") (translated_start_words cfg) = false.

Let x : string := w ++ "ing".

Lemma gerund_no_space : no_space x = true.
Proof.
  pose proof w_no_space as H. unfold x, no_space in *.
  rewrite all_chars_app. now rewrite H.
Qed.

Lemma gerund_nonempty : x <> "".
Proof. unfold x. destruct w; discriminate. Qed.

(** A pattern with a space in it does not occur in the word. *)
Lemma gerund_absent (old : string) :
  Py.char_in " " old = true -> find_occ old x = None.
Proof.
  intros H.
  apply (find_occ_absent (fun c => negb (Py.is_space c)) old x " "%char);
    [exact H | reflexivity | exact gerund_no_space].
Qed.

Lemma gerund_last_word : last_word_of x = x.
Proof.
  unfold last_word_of. now rewrite (split_absent " " x (gerund_absent " " eq_refl)).
Qed.

Lemma gerund_suffix : Py.last_n 3 x = "ing".
Proof. exact (last_n_app w "ing"). Qed.

Lemma gerund_strip_dots : strip_dots (x ++ "..") = Ret x.
Proof.
  unfold strip_dots. rewrite rev_app.
  change (Py.rev "..") with "..".
  cbn [String.append strip_dots_rev Ascii.eqb Bool.eqb].
  unfold x at 1. rewrite rev_app. change (Py.rev "ing") with "gni".
  cbn [String.append strip_dots_rev Ascii.eqb Bool.eqb rbind].
  change (String "g" (String "n" (String "i" (Py.rev w))))
    with ("gni" ++ Py.rev w).
  change "gni" with (Py.rev "ing"). rewrite <- rev_app.
  now rewrite rev_rev.
Qed.

(** The second loop never leaves: the word is its own last word, and
    deleting " " + word from it changes nothing. *)
Lemma strip_fillers_stuck (fuel : nat) : strip_fillers fuel cfg x x = OutOfFuel.
Proof.
  induction fuel as [|k IH]; cbn [strip_fillers];
    rewrite gerund_suffix, orb_true_r; [reflexivity|].
  rewrite (replace_absent (" " ++ x) "" x) by
    (discriminate || exact (gerund_absent (" " ++ x) eq_refl)).
  cbv zeta. rewrite gerund_last_word. exact IH.
Qed.

(** X6. A truncated abstract that is one word ending in "ing" (no
    whitespace in it, the word not a start word) makes [format_related]
    loop for ever: [ans.replace(' ' + last_word, '')] finds nothing to
    delete, so the second [while] loop repeats unchanged whatever the
    fuel. *)
Theorem format_related_hangs_on_lone_gerund (fuel : nat) (query : string) :
  format_related fuel cfg (w ++ "ing..") query = OutOfFuel.
Proof.
  replace (w ++ "ing..") with (x ++ "..")
    by (unfold x; now rewrite app_assoc_s).
  unfold format_related.
  replace (Py.last_n 2 (x ++ "..")) with ".." by (symmetry; exact (last_n_app x "..")).
  cbn [String.eqb Ascii.eqb Bool.eqb]. unfold untruncate.
  rewrite gerund_strip_dots. cbn [rbind].
  rewrite (split_absent ", " x (gerund_absent ", " eq_refl)).
  cbn [List.last removelast].
  rewrite (split_ws_no_space x gerund_no_space gerund_nonempty).
  fold x in not_start_word. rewrite not_start_word.
  rewrite gerund_last_word, strip_fillers_stuck. reflexivity.
Qed.

End Hang.

(* ================================================================= *)
(** ** [extract_topic] and [CQS_match_query_phrase] over the word lists *)

Section CommonQuery.

Variables (fuel : nat) (env : Env) (cfg : Config).

Lemma in_combinations (noun verb article : string) :
  In noun (translated_question_words cfg) ->
  In verb (translated_question_verbs cfg) ->
  In article (article_forms cfg) ->
  In (test_prefix noun verb article) (combinations cfg).
Proof.
  intros Hn Hv Ha. unfold combinations.
  apply in_flat_map. exists noun. split; [exact Hn|].
  apply in_flat_map. exists verb. split; [exact Hv|].
  now apply in_map.
Qed.

Lemma combinations_inv (t : string) :
  In t (combinations cfg) ->
  exists noun verb article,
    t = test_prefix noun verb article /\
    In noun (translated_question_words cfg) /\
    In verb (translated_question_verbs cfg) /\
    In article (article_forms cfg).
Proof.
  unfold combinations. intros H.
  apply in_flat_map in H as [noun [Hn H]].
  apply in_flat_map in H as [verb [Hv H]].
  apply in_map_iff in H as [article [<- Ha]].
  now exists noun, verb, article.
Qed.

Lemma test_prefix_length (noun verb article : string) :
  1 <= String.length (test_prefix noun verb article).
Proof. unfold test_prefix. rewrite !strlen_app. simpl. lia. Qed.

Lemma no_article_form : In "" (article_forms cfg).
Proof. unfold article_forms. apply in_or_app. right. now left. Qed.

(** X7. An utterance that starts with a question word, a question verb
    and a space always loses a non-empty prefix: the article-less form is
    among the prefixes tried, so some combination matches. *)
Theorem extract_topic_strips_question (noun verb query : string)
  (Hn : In noun (translated_question_words cfg))
  (Hv : In verb (translated_question_verbs cfg))
  (Hs : Py.startswith (noun ++ verb ++ " ") query = true) :
  String.length (extract_topic cfg query) < String.length query.
Proof.
  unfold extract_topic. rewrite topic_nouns_first.
  fold (combinations cfg). unfold first_match.
  destruct (find _ (combinations cfg)) as [t|] eqn:F; cbn [option_map].
  - apply find_some in F as [Hin Ht].
    apply combinations_inv in Hin as [n [v [a [-> _]]]].
    pose proof (test_prefix_length n v a) as L.
    apply startswith_true in Ht.
    rewrite length_drop.
    assert (String.length query
            = String.length (test_prefix n v a)
              + String.length (Py.drop (String.length (test_prefix n v a)) query))
      by (rewrite <- strlen_app; now rewrite <- Ht).
    lia.
  - exfalso.
    pose proof (find_none _ _ F _ (in_combinations noun verb "" Hn Hv no_article_form)) as N.
    cbv beta in N. unfold test_prefix in N. cbn [String.append] in N.
    change (String " " "") with " " in N. congruence.
Qed.

Lemma bind_ret_l {A B} (a : A) (f : A -> M B) : bind (ret a) f = f a.
Proof. unfold bind, ret. now destruct (f a). Qed.

Lemma cqs_articles_no_match noun verb articles query answer :
  (forall a, In a articles ->
             Py.startswith (test_prefix noun verb a) query = false) ->
  cqs_articles fuel env cfg noun verb articles query answer = ret answer.
Proof.
  induction articles as [|a rest IH]; intros H; [reflexivity|].
  cbn [cqs_articles]. rewrite (H a (or_introl eq_refl)).
  apply IH. intros b Hb. apply H. now right.
Qed.

Lemma cqs_verbs_no_match noun verbs articles query answer :
  (forall v a, In v verbs -> In a articles ->
               Py.startswith (test_prefix noun v a) query = false) ->
  cqs_verbs fuel env cfg noun verbs articles query answer = ret answer.
Proof.
  induction verbs as [|v rest IH]; intros H; [reflexivity|].
  cbn [cqs_verbs].
  rewrite cqs_articles_no_match by (intros a Ha; apply H; [now left|exact Ha]).
  rewrite bind_ret_l. apply IH. intros v' a Hv Ha. apply H; [now right|exact Ha].
Qed.

Lemma cqs_nouns_no_match nouns verbs articles query answer :
  (forall n v a, In n nouns -> In v verbs -> In a articles ->
                 Py.startswith (test_prefix n v a) query = false) ->
  cqs_nouns fuel env cfg nouns verbs articles query answer = ret answer.
Proof.
  induction nouns as [|n rest IH]; intros H; [reflexivity|].
  cbn [cqs_nouns].
  rewrite cqs_verbs_no_match
    by (intros v a Hv Ha; apply H; [now left|exact Hv|exact Ha]).
  rewrite bind_ret_l. apply IH. intros n' v a Hn Hv Ha.
  apply H; [now right|exact Hv|exact Ha].
Qed.

(** X8. When no combination of question word, verb and article starts the
    query, [CQS_match_query_phrase] returns [None] without a single
    outbound call. *)
Theorem common_query_no_match_no_call (query : string)
  (H : find (fun t => Py.startswith t query) (combinations cfg) = None) :
  CQS_match_query_phrase fuel env cfg query = ([], Ret None).
Proof.
  unfold CQS_match_query_phrase.
  rewrite cqs_nouns_no_match; [reflexivity|].
  intros n v a Hn Hv Ha.
  exact (find_none _ _ H _ (in_combinations n v a Hn Hv Ha)).
Qed.

Lemma calls_app (t1 t2 : list event) :
  primary_calls (t1 ++ t2) = primary_calls t1 + primary_calls t2 /\
  http_calls (t1 ++ t2) = http_calls t1 + http_calls t2.
Proof.
  unfold primary_calls, http_calls.
  now rewrite !filter_app, !List.length_app.
Qed.

Lemma cqs_articles_calls noun verb articles query answer :
  primary_calls (trace (cqs_articles fuel env cfg noun verb articles query answer)) <= 1 /\
  http_calls (trace (cqs_articles fuel env cfg noun verb articles query answer)) <= 2.
Proof.
  induction articles as [|a rest IH]; cbn [cqs_articles].
  - unfold primary_calls, http_calls; simpl; lia.
  - destruct (Py.startswith _ query); [apply query_ddg_calls | exact IH].
Qed.

Lemma cqs_verbs_calls noun verbs articles query answer :
  primary_calls (trace (cqs_verbs fuel env cfg noun verbs articles query answer))
    <= List.length verbs /\
  http_calls (trace (cqs_verbs fuel env cfg noun verbs articles query answer))
    <= 2 * List.length verbs.
Proof.
  revert answer; induction verbs as [|v rest IH]; intros answer; cbn [cqs_verbs].
  - unfold primary_calls, http_calls; simpl; lia.
  - rewrite trace_bind.
    destruct (calls_app
      (trace (cqs_articles fuel env cfg noun v articles query answer))
      (match outcome (cqs_articles fuel env cfg noun v articles query answer) with
       | Ret a => trace (cqs_verbs fuel env cfg noun rest articles query a)
       | _ => []
       end)) as [-> ->].
    destruct (cqs_articles_calls noun v articles query answer) as [P H].
    destruct (outcome (cqs_articles fuel env cfg noun v articles query answer))
      as [a|e|].
    + destruct (IH a). cbn [List.length]. lia.
    + unfold primary_calls, http_calls in *; cbn [List.length filter]; lia.
    + unfold primary_calls, http_calls in *; cbn [List.length filter]; lia.
Qed.

Lemma cqs_nouns_calls nouns verbs articles query answer :
  primary_calls (trace (cqs_nouns fuel env cfg nouns verbs articles query answer))
    <= List.length nouns * List.length verbs /\
  http_calls (trace (cqs_nouns fuel env cfg nouns verbs articles query answer))
    <= 2 * (List.length nouns * List.length verbs).
Proof.
  revert answer; induction nouns as [|n rest IH]; intros answer; cbn [cqs_nouns].
  - unfold primary_calls, http_calls; simpl; lia.
  - rewrite trace_bind.
    destruct (calls_app
      (trace (cqs_verbs fuel env cfg n verbs articles query answer))
      (match outcome (cqs_verbs fuel env cfg n verbs articles query answer) with
       | Ret a => trace (cqs_nouns fuel env cfg rest verbs articles query a)
       | _ => []
       end)) as [-> ->].
    destruct (cqs_verbs_calls n verbs articles query answer) as [P H].
    destruct (outcome (cqs_verbs fuel env cfg n verbs articles query answer))
      as [a|e|].
    + destruct (IH a). cbn [List.length]. lia.
    + unfold primary_calls, http_calls in *; cbn [List.length filter]; lia.
    + unfold primary_calls, http_calls in *; cbn [List.length filter]; lia.
Qed.

(** X9. One invocation of [CQS_match_query_phrase] makes at most one
    primary search for each pair of question word and question verb, and
    at most twice as many HTTP calls. *)
Theorem common_query_call_bound (query : string) :
  let pairs := List.length (translated_question_words cfg)
               * List.length (translated_question_verbs cfg) in
  primary_calls (trace (CQS_match_query_phrase fuel env cfg query)) <= pairs /\
  http_calls (trace (CQS_match_query_phrase fuel env cfg query)) <= 2 * pairs.
Proof.
  intros pairs. unfold CQS_match_query_phrase. rewrite trace_bind.
  set (m := cqs_nouns fuel env cfg _ _ _ query None).
  destruct (cqs_nouns_calls (translated_question_words cfg)
              (translated_question_verbs cfg) (article_forms cfg) query None)
    as [P H]. fold m in P, H. fold pairs in P, H.
  assert (E : match outcome m with
              | Ret a => trace (match a with
                                | Some (String _ _ as a0) => ret (Some (query, CATEGORY, a0))
                                | _ => ret None
                                end)
              | _ => []
              end = []).
  { destruct (outcome m) as [[[|c a]|]|e|]; reflexivity. }
  rewrite E, app_nil_r. now split.
Qed.

End CommonQuery.

Section Provenance.

Variables (fuel : nat) (env : Env) (cfg : Config) (query : string).

Let from_a_suffix := answer_from_suffix fuel env cfg query.

Lemma cqs_articles_provenance noun verb articles answer answer' :
  from_a_suffix answer ->
  outcome (cqs_articles fuel env cfg noun verb articles query answer) = Ret answer' ->
  from_a_suffix answer'.
Proof.
  intros Inv. induction articles as [|a rest IH]; cbn [cqs_articles].
  - intros [= <-]. exact Inv.
  - destruct (Py.startswith (test_prefix noun verb a) query) eqn:E; [|exact IH].
    intros H b ->. exists (test_prefix noun verb a). eexists.
    split; [exact (startswith_true _ _ E) | exact H].
Qed.

Lemma cqs_verbs_provenance noun verbs articles answer answer' :
  from_a_suffix answer ->
  outcome (cqs_verbs fuel env cfg noun verbs articles query answer) = Ret answer' ->
  from_a_suffix answer'.
Proof.
  revert answer; induction verbs as [|v rest IH]; intros answer Inv;
    cbn [cqs_verbs].
  - intros [= <-]. exact Inv.
  - rewrite outcome_bind.
    destruct (outcome (cqs_articles fuel env cfg noun v articles query answer))
      as [a1|e|] eqn:E; try discriminate.
    apply IH. exact (cqs_articles_provenance _ _ _ _ _ Inv E).
Qed.

Lemma cqs_nouns_provenance nouns verbs articles answer answer' :
  from_a_suffix answer ->
  outcome (cqs_nouns fuel env cfg nouns verbs articles query answer) = Ret answer' ->
  from_a_suffix answer'.
Proof.
  revert answer; induction nouns as [|n rest IH]; intros answer Inv;
    cbn [cqs_nouns].
  - intros [= <-]. exact Inv.
  - rewrite outcome_bind.
    destruct (outcome (cqs_verbs fuel env cfg n verbs articles query answer))
      as [a1|e|] eqn:E; try discriminate.
    apply IH. exact (cqs_verbs_provenance _ _ _ _ _ Inv E).
Qed.

(** X10. A match reported by [CQS_match_query_phrase] names the whole
    query (not the topic), carries a non-empty answer, and that answer is
    what [query_ddg] returned for a suffix of the query. *)
Theorem common_query_answer_provenance (q : string) (level : CQSMatchLevel)
  (a : string)
  (H : outcome (CQS_match_query_phrase fuel env cfg query) = Ret (Some (q, level, a))) :
  q = query /\ a <> "" /\
  exists p topic,
    query = p ++ topic /\
    outcome (query_ddg fuel env cfg topic) = Ret (Some a).
Proof.
  unfold CQS_match_query_phrase in H. rewrite outcome_bind in H.
  destruct (outcome (cqs_nouns fuel env cfg _ _ _ query None))
    as [[[|c a0]|]|e|] eqn:E; try discriminate.
  injection H as <- _ <-.
  split; [reflexivity|]. split; [discriminate|].
  refine (cqs_nouns_provenance _ _ _ None _ _ E _ eq_refl).
  intros b Hb. discriminate.
Qed.

End Provenance.

(* ================================================================= *)
(** ** [query_ddg] and [handle_ask_ducky]: the exact calls *)

Section Calls.

Variables (fuel : nat) (env : Env) (cfg : Config).

Lemma bind_emit_ret {A B} (e : event) (a : A) (f : A -> M B) :
  bind (emit e (Ret a)) f = (e :: trace (f a), outcome (f a)).
Proof. unfold bind, emit. now destruct (f a). Qed.

(** X11. Unless the result is of type 'disambiguation' and lists a
    related topic, [query_ddg] makes the primary search and nothing else,
    and selects from that result. *)
Theorem query_ddg_single_call (query : string) (response : Response)
  (Hq : query <> "")
  (Hr : ddg_query env query = Ret response)
  (Hd : rtype response <> "disambiguation" \/ related response = []) :
  query_ddg fuel env cfg query
  = ([EvQuery query], select_answer fuel cfg query response).
Proof.
  rewrite (query_ddg_returned fuel env cfg _ _ Hq Hr).
  assert (D : disambiguate env response = ret response).
  { unfold disambiguate.
    destruct (String.eqb (rtype response) "disambiguation") eqn:E;
      [|reflexivity].
    apply String.eqb_eq in E. destruct Hd as [Hd|Hd]; [contradiction|].
    now rewrite Hd. }
  rewrite bind_emit_ret, D. reflexivity.
Qed.


(** X13. When the detail page has a body and it parses, the answer is
    selected from the parsed result alone: the original disambiguation
    result is dropped, whatever it held. *)
Theorem query_ddg_detail_replaces (query : string)
  (response detailed : Response) (r0 : Related) (rest : list Related)
  (url body : string)
  (Hq : query <> "")
  (Hr : ddg_query env query = Ret response)
  (Ht : rtype response = "disambiguation")
  (Hrel : related response = r0 :: rest)
  (Hurl : related_url r0 = Some url)
  (Hbody : requests_get env (url ++ "?o=x") = Ret body)
  (Hne : body <> "")
  (Hparse : parse_results env body = Ret detailed) :
  query_ddg fuel env cfg query
  = ([EvQuery query; EvGet (url ++ "?o=x")],
     select_answer fuel cfg query detailed).
Proof.
  rewrite (query_ddg_returned fuel env cfg _ _ Hq Hr), bind_emit_ret.
  unfold disambiguate. rewrite Ht, Hrel, Hurl.
  cbn [String.eqb Ascii.eqb Bool.eqb].
  rewrite Hbody. rewrite bind_emit_ret.
  destruct body as [|c body]; [contradiction|].
  rewrite Hparse. reflexivity.
Qed.

(** X14. With an empty abstract in the result selected from, every answer
    string comes from the direct-answer or the related-topic branch, is
    not empty and ends in one of . ? ! *)
Theorem answers_off_abstract_end_sentence (query : string)
  (response : Response) (a : string)
  (Habs : abstract_text response = "")
  (H : select_answer fuel cfg query response = Ret (Some a)) :
  a <> "" /\ ends_in_terminal a = true.
Proof.
  pose proof (select_answer_terminal _ _ _ _ _ Habs H) as T.
  split; [now apply ends_in_terminal_nonempty | exact T].
Qed.

(** X15. The intent handler makes at most one primary search and at most
    two HTTP calls, whatever the utterance and the remote side. *)
Theorem intent_handler_call_bound (utterance : option string) :
  primary_calls (trace (handle_ask_ducky fuel env cfg utterance)) <= 1 /\
  http_calls (trace (handle_ask_ducky fuel env cfg utterance)) <= 2.
Proof. exact (handle_ask_ducky_calls fuel env cfg utterance). Qed.

(** X16. The intent handler speaks exactly when [query_ddg] returned
    something other than [None] (the empty string included): then, after
    all outbound calls, the lead-in dialog and the answer itself; an
    exception of [query_ddg] leaves the handler unspoken and uncaught. *)
Theorem intent_handler_speech (utt : string) :
  let m := query_ddg fuel env cfg (ask_ducky_topic cfg utt) in
  trace (handle_ask_ducky fuel env cfg (Some utt)) =
    (trace m ++ match outcome m with
                | Ret (Some r) => [EvSpeakDialog "ddg.specific.response"; EvSpeak r]
                | _ => []
                end)%list /\
  outcome (handle_ask_ducky fuel env cfg (Some utt)) =
    match outcome m with
    | Ret _ => Ret tt
    | Raise e => Raise e
    | OutOfFuel => OutOfFuel
    end.
Proof.
  intros m. unfold handle_ask_ducky. fold m.
  rewrite trace_bind, outcome_bind.
  destruct (outcome m) as [[r|]|e|]; split; reflexivity.
Qed.

End Calls.

(* ================================================================= *)
(** ** [__init__]: the vocabulary is sorted longest first *)

Section Vocabulary.

Let longer_first (a b : string) : Prop := String.length b <= String.length a.
Let key_order (a b : string) : Prop := vocab_key_le a b = true.

Lemma vocab_key_le_length (x y : string) :
  vocab_key_le x y = true -> String.length y <= String.length x.
Proof.
  unfold vocab_key_le. intros H. apply orb_true_iff in H as [H|H].
  - apply Nat.ltb_lt in H. lia.
  - apply andb_true_iff in H as [H _]. apply Nat.eqb_eq in H. lia.
Qed.

Lemma vocab_key_le_total (x y : string) :
  vocab_key_le x y = false -> vocab_key_le y x = true.
Proof.
  unfold vocab_key_le. intros H. apply orb_false_iff in H as [H1 H2].
  apply Nat.ltb_ge in H1. apply orb_true_iff.
  destruct (Nat.eq_dec (String.length x) (String.length y)) as [E|N].
  - right. rewrite E, Nat.eqb_refl in *. cbn [andb] in *.
    destruct (String.leb_total x y) as [L|L]; congruence.
  - left. apply Nat.ltb_lt. lia.
Qed.

Lemma insert_by_key_perm (x : string) (l : list string) :
  Permutation (x :: l) (insert_by_key x l).
Proof.
  induction l as [|y l IH]; cbn [insert_by_key]; [reflexivity|].
  destruct (vocab_key_le x y); [reflexivity|].
  rewrite perm_swap. now apply perm_skip.
Qed.

Lemma insert_by_key_longer_first (x : string) (l : list string) :
  StronglySorted longer_first l -> StronglySorted longer_first (insert_by_key x l).
Proof.
  induction l as [|y l IH]; intros S; cbn [insert_by_key].
  - constructor; [constructor | constructor].
  - apply StronglySorted_inv in S as [Sl Fy].
    destruct (vocab_key_le x y) eqn:E.
    + constructor; [now constructor|].
      apply vocab_key_le_length in E.
      constructor; [exact E|].
      eapply Forall_impl; [|exact Fy]. unfold longer_first. intros z Hz. lia.
    + constructor; [now apply IH|].
      eapply Permutation_Forall; [apply insert_by_key_perm|].
      constructor; [|exact Fy].
      apply vocab_key_le_total, vocab_key_le_length in E. exact E.
Qed.

Lemma insert_by_key_hd (x y : string) (l : list string) :
  key_order y x -> HdRel key_order y l -> HdRel key_order y (insert_by_key x l).
Proof.
  intros Hyx H. destruct l as [|z l]; cbn [insert_by_key]; [now constructor|].
  destruct (vocab_key_le x z); constructor; [exact Hyx|].
  now inversion H.
Qed.

Lemma insert_by_key_sorted (x : string) (l : list string) :
  Sorted key_order l -> Sorted key_order (insert_by_key x l).
Proof.
  induction l as [|y l IH]; intros S; cbn [insert_by_key].
  - now repeat constructor.
  - destruct (vocab_key_le x y) eqn:E.
    + constructor; [exact S | now constructor].
    + apply Sorted_inv in S as [Sl Hy].
      constructor; [now apply IH|].
      apply insert_by_key_hd; [now apply vocab_key_le_total | exact Hy].
Qed.

(** X17. [sorted_vocab] holds exactly the phrases of the vocabulary file
    (each line joined with single spaces), a phrase never comes after a
    shorter one, and neighbours are in the order of the key
    [(-len(x), x)]. *)
Theorem sorted_vocab_longest_first (temp : list (list string)) :
  Permutation (map (Py.join " ") temp) (init_sorted_vocab temp) /\
  StronglySorted (fun a b => String.length b <= String.length a)
                 (init_sorted_vocab temp) /\
  Sorted (fun a b => vocab_key_le a b = true) (init_sorted_vocab temp).
Proof.
  unfold init_sorted_vocab, sorted_by_key.
  induction (map (Py.join " ") temp) as [|x l [P [S K]]]; cbn [fold_right].
  - repeat split; constructor.
  - split; [|split].
    + rewrite <- insert_by_key_perm. now apply perm_skip.
    + now apply insert_by_key_longer_first.
    + now apply insert_by_key_sorted.
Qed.

End Vocabulary.

(* ================================================================= *)
(** ** [handle_ask_ducky]: the topic only loses text *)

Section Shrinks.

Lemma interleave_empty (s : string) : Py.interleave "" s = s.
Proof. induction s as [|c s IH]; simpl; [reflexivity | now rewrite IH]. Qed.

Lemma replace_scan_delete_length (old : string) (k : nat) (s : string) :
  String.length (Py.replace_scan old "" k s) <= String.length s.
Proof.
  revert k; induction s as [|c s IH]; intros k; cbn [Py.replace_scan];
    [reflexivity|].
  destruct k as [|k].
  - destruct (Py.startswith old (String c s)); cbn [String.append String.length].
    + specialize (IH (String.length old - 1)). lia.
    + specialize (IH 0). lia.
  - specialize (IH k). cbn [String.length]. lia.
Qed.

Lemma replace_delete_length (old s : string) :
  String.length (Py.replace old "" s) <= String.length s.
Proof.
  unfold Py.replace. destruct old as [|c old].
  - now rewrite interleave_empty.
  - apply replace_scan_delete_length.
Qed.

Lemma lstrip_length (s : string) :
  String.length (Py.lstrip s) <= String.length s.
Proof.
  induction s as [|c s IH]; cbn [Py.lstrip]; [reflexivity|].
  destruct (Py.is_space c); cbn [String.length]; lia.
Qed.

Lemma strip_length (s : string) :
  String.length (Py.strip s) <= String.length s.
Proof.
  unfold Py.strip. rewrite length_rev.
  pose proof (lstrip_length (Py.rev (Py.lstrip s))) as H1.
  rewrite length_rev in H1.
  pose proof (lstrip_length s). lia.
Qed.

Lemma extract_topic_length (cfg : Config) (query : string) :
  String.length (extract_topic cfg query) <= String.length query.
Proof.
  unfold extract_topic. rewrite topic_nouns_first.
  destruct (first_match _ query) as [r|] eqn:E; [|reflexivity].
  apply first_match_suffix in E as [p E].
  rewrite E, strlen_app. lia.
Qed.

Lemma remove_vocab_length (vocab : list string) (utt : string) :
  String.length (fold_left (fun u voc => Py.replace voc "" u) vocab utt)
  <= String.length utt.
Proof.
  revert utt; induction vocab as [|v vocab IH]; intros utt; cbn [fold_left];
    [reflexivity|].
  specialize (IH (Py.replace v "" utt)).
  pose proof (replace_delete_length v utt). lia.
Qed.

(** X18. The topic the intent handler searches for is never longer than
    the utterance: removing the vocabulary, stripping, extracting the
    topic and deleting the articles only take text away. *)
Theorem ask_ducky_topic_never_longer (cfg : Config) (utt : string) :
  String.length (ask_ducky_topic cfg utt) <= String.length utt.
Proof.
  unfold ask_ducky_topic.
  pose proof (remove_vocab_length (sorted_vocab cfg) utt) as H1.
  set (u1 := fold_left _ (sorted_vocab cfg) utt) in *.
  pose proof (strip_length u1) as H2.
  pose proof (extract_topic_length cfg (Py.strip u1)) as H3.
  set (u3 := extract_topic cfg (Py.strip u1)) in *.
  pose proof (replace_delete_length "an " u3) as H4.
  pose proof (replace_delete_length "a " (Py.replace "an " "" u3)) as H5.
  pose proof (replace_delete_length "the "
                (Py.replace "a " "" (Py.replace "an " "" u3))) as H6.
  lia.
Qed.

End Shrinks.

(* ================================================================= *)
(** ** [split_sentences] returns unless the text ends in a space *)

Section Returns.

Lemma final_char_app (a b : string) :
  final_char (a ++ b) = match b with
                        | EmptyString => final_char a
                        | _ => final_char b
                        end.
Proof.
  induction a as [|c a IH]; cbn [String.append].
  - now destruct b.
  - cbn [final_char]. rewrite IH.
    destruct a as [|d a]; cbn [String.append]; destruct b; reflexivity.
Qed.

Lemma final_char_app_nonempty (a b : string) :
  b <> "" -> final_char (a ++ b) = final_char b.
Proof. intros H. rewrite final_char_app. destruct b; [contradiction|reflexivity]. Qed.

Lemma app_nonempty_r (a b : string) : b <> "" -> a ++ b <> "".
Proof. intros H E. destruct a; [now apply H | discriminate]. Qed.

Lemma last_char_final (s : string) : Py.last_char s = final_char s.
Proof.
  destruct s as [|c s]; [reflexivity|].
  destruct (last_char_nonempty (String c s)) as [z Hz]; [discriminate|].
  rewrite Hz. apply last_char_some in Hz as [a ->].
  now rewrite final_char_app.
Qed.

Lemma find_occ_some (old s : string) (i : nat) :
  find_occ old s = Some i ->
  s = Py.take i s ++ old ++ Py.drop (i + String.length old) s.
Proof.
  revert i; induction s as [|c s IH]; intros i; cbn [find_occ].
  - destruct (Py.startswith old "") eqn:E; [|discriminate].
    intros [= <-]. now apply startswith_true in E.
  - destruct (Py.startswith old (String c s)) eqn:E.
    + intros [= <-]. now apply startswith_true in E.
    + destruct (find_occ old s) as [j|]; [|discriminate].
      intros [= <-]. cbn [Py.take Nat.add Py.drop String.append].
      now rewrite <- (IH j eq_refl).
Qed.

Section OnePattern.

Variables old new : string.
Hypothesis old_nonempty : old <> "".
Hypothesis new_nonempty : new <> "".

Lemma replace_empty_inv (s : string) : Py.replace old new s = "" -> s = "".
Proof.
  rewrite (replace_unfold old new old_nonempty).
  destruct (find_occ old s) as [i|]; [|auto].
  intros H. exfalso. destruct (Py.take i s); [|discriminate].
  cbn [String.append] in H. destruct new; [contradiction|discriminate].
Qed.

(** The replacement cannot bring a space to the end of the text: either
    [new] does not end in a space, or [old] ends in one too. *)
Hypothesis no_new_space :
  final_char new <> Some " "%char \/ final_char old = Some " "%char.

Lemma replace_final_space_bounded (n : nat) (s : string) :
  String.length s <= n ->
  final_char (Py.replace old new s) = Some " "%char ->
  final_char s = Some " "%char.
Proof.
  revert s; induction n as [|n IH]; intros s Hn;
    rewrite (replace_unfold old new old_nonempty);
    destruct (find_occ old s) as [i|] eqn:F; auto.
  - destruct s; [|simpl in Hn; lia].
    cbn [find_occ] in F.
    now rewrite (startswith_nonempty_nil old old_nonempty) in F.
  - pose proof (find_occ_some _ _ _ F) as Hs.
    set (r := Py.drop (i + String.length old) s) in *.
    assert (Hr : String.length r <= n).
    { unfold r. rewrite length_drop.
      assert (1 <= String.length old)
        by (destruct old; [contradiction | cbn [String.length]; lia]).
      lia. }
    destruct (Py.replace old new r) as [|c q] eqn:R.
    + apply replace_empty_inv in R. rewrite app_empty_r.
      rewrite (final_char_app_nonempty _ _ new_nonempty). intros H.
      destruct no_new_space as [N|O]; [contradiction|].
      rewrite Hs, R, app_empty_r.
      now rewrite (final_char_app_nonempty _ _ old_nonempty).
    + rewrite final_char_app_nonempty by (apply app_nonempty_r; discriminate).
      rewrite final_char_app_nonempty by discriminate.
      intros H. rewrite <- R in H. apply (IH r Hr) in H.
      assert (Hne : r <> "") by (intros E; rewrite E in H; discriminate).
      rewrite Hs.
      rewrite final_char_app_nonempty by (now apply app_nonempty_r).
      now rewrite final_char_app_nonempty.
Qed.

Lemma replace_final_space (s : string) :
  final_char (Py.replace old new s) = Some " "%char ->
  final_char s = Some " "%char.
Proof. exact (replace_final_space_bounded _ s (le_n _)). Qed.

End OnePattern.

Lemma final_char_cons (c : ascii) (t : string) :
  t <> "" -> final_char (String c t) = final_char t.
Proof. intros H. destruct t; [contradiction | reflexivity]. Qed.

Lemma protect_initials_empty_inv (s : string) : protect_initials s = "" -> s = "".
Proof.
  destruct s as [|a [|c [|d r]]]; cbn [protect_initials]; try discriminate; auto.
  destruct (_ && _); discriminate.
Qed.

Lemma protect_initials_final_space_bounded (n : nat) (s : string) :
  String.length s <= n ->
  final_char (protect_initials s) = Some " "%char ->
  final_char s = Some " "%char.
Proof.
  revert s; induction n as [|n IH]; intros s Hn.
  { destruct s; [auto | simpl in Hn; lia]. }
  destruct s as [|a [|c [|d r]]]; auto.
  cbn [String.length] in Hn. cbn [protect_initials].
  destruct (Ascii.eqb a " " && negb (Py.char_in c " .") && Ascii.eqb d ".").
  - rewrite !final_char_cons by discriminate.
    change (String "~" (String "." (String "~" (protect_initials r))))
      with ("~.~" ++ protect_initials r).
    rewrite final_char_app.
    destruct (protect_initials r) as [|x q] eqn:P; [discriminate|].
    rewrite <- P. intros H. apply IH in H; [|lia].
    assert (r <> "") by (intros E; rewrite E in H; discriminate).
    now rewrite !final_char_cons by (discriminate || assumption).
  - assert (Hp : protect_initials (String c (String d r)) <> "")
      by (intros E; apply protect_initials_empty_inv in E; discriminate).
    rewrite (final_char_cons _ _ Hp). intros H.
    apply IH in H; [|cbn [String.length]; lia].
    now rewrite final_char_cons by discriminate.
Qed.

Lemma split_scan_skip (sep : string) (k : nat) (cur s : string) :
  Py.split_scan sep k cur s = Py.split_scan sep 0 cur (Py.drop k s).
Proof.
  revert k; induction s as [|c s IH]; intros [|k]; simpl; try reflexivity.
  apply IH.
Qed.

Lemma last_cons_nonempty {A} (x d : A) (l : list A) :
  l <> [] -> List.last (x :: l) d = List.last l d.
Proof. destruct l; [contradiction | reflexivity]. Qed.

Lemma last_map_nonempty {A B} (f : A -> B) (l : list A) (d : B) (d' : A) :
  l <> [] -> List.last (map f l) d = f (List.last l d').
Proof.
  induction l as [|x l IH]; [contradiction|]. intros _.
  destruct l as [|y l]; [reflexivity|].
  change (map f (x :: y :: l)) with (f x :: map f (y :: l)).
  rewrite !last_cons_nonempty by discriminate.
  apply IH. discriminate.
Qed.

(** The last piece of [split] is empty only for the empty text and for a
    text that ends with the separator. *)
Lemma split_last_empty_bounded (sep : string) (n : nat) (cur s : string) :
  sep <> "" -> String.length s <= n ->
  List.last (Py.split_scan sep 0 cur s) "" = "" ->
  (cur = "" /\ s = "") \/ exists a, s = a ++ sep.
Proof.
  intros Hsep. revert cur s; induction n as [|n IH]; intros cur s Hn.
  { destruct s; [|simpl in Hn; lia]. cbn. auto. }
  destruct s as [|c s]; [cbn; auto|].
  cbn [String.length] in Hn. cbn [Py.split_scan].
  destruct (Py.startswith sep (String c s)) eqn:E.
  - rewrite split_scan_skip.
    rewrite last_cons_nonempty by apply split_scan_nonempty.
    apply startswith_true in E.
    assert (D : Py.drop (String.length sep) (String c s)
                = Py.drop (String.length sep - 1) s).
    { destruct sep; [contradiction|]. cbn [String.length Py.drop Nat.sub].
      now rewrite Nat.sub_0_r. }
    rewrite D in E. set (r := Py.drop (String.length sep - 1) s) in *.
    intros H. apply IH in H; [|unfold r; rewrite length_drop; lia].
    right. destruct H as [[_ Hr]|[a Ha]].
    + exists "". now rewrite E, Hr, app_empty_r.
    + exists (sep ++ a). now rewrite E, Ha, app_assoc_s.
  - intros H. apply IH in H; [|lia]. right.
    destruct H as [[Hc _]|[a Ha]].
    + destruct cur; discriminate.
    + exists (String c a). now rewrite Ha.
Qed.

Lemma split_sentences_total_off_space (text : string) :
  text <> "" -> Py.last_char text <> Some " "%char ->
  exists sents, split_sentences text = Ret sents.
Proof.
  intros Hne Hsp.
  unfold split_sentences.
  set (t1 := protect_initials text).
  set (t2 := Py.replace "Inc." "Inc~.~" t1).
  set (t3 := Py.replace "! " ". " t2).
  set (t4 := Py.replace "? " ". " t3).
  set (pieces := Py.split ". " t4).
  destruct (Py.last_char (List.last (map (Py.replace "~.~" ".") pieces) ""))
    as [c|] eqn:L; [destruct (Py.char_in c ".!?"); eauto|].
  exfalso.
  assert (Hp : pieces <> []) by apply split_scan_nonempty.
  rewrite (last_map_nonempty _ pieces "" "" Hp) in L.
  assert (E : Py.replace "~.~" "." (List.last pieces "") = "").
  { destruct (Py.replace "~.~" "." (List.last pieces "")) as [|x q] eqn:R;
      [reflexivity|].
    destruct (last_char_nonempty (String x q)) as [z Hz]; [discriminate|].
    congruence. }
  apply replace_empty_inv in E; [|discriminate|discriminate].
  apply (split_last_empty_bounded ". " _ "" t4 ltac:(discriminate) (le_n _)) in E.
  destruct E as [[_ E]|[a E]].
  - apply replace_empty_inv in E; [|discriminate|discriminate].
    apply replace_empty_inv in E; [|discriminate|discriminate].
    apply replace_empty_inv in E; [|discriminate|discriminate].
    apply protect_initials_empty_inv in E. contradiction.
  - assert (F : final_char t4 = Some " "%char)
      by (rewrite E; now rewrite final_char_app_nonempty by discriminate).
    apply replace_final_space in F; [|discriminate|discriminate|now right].
    apply replace_final_space in F; [|discriminate|discriminate|now right].
    apply replace_final_space in F;
      [|discriminate|discriminate|left; discriminate].
    apply (protect_initials_final_space_bounded _ _ (le_n _)) in F.
    rewrite last_char_final in Hsp. contradiction.
Qed.

(** X19. [split_sentences] returns for every non-empty text that does not
    end in a space: the [IndexError] at [sents[-1][-1]] needs an empty
    last piece, which only the empty text and a text ending in ". ",
    "! " or "? " produce. *)
Theorem split_sentences_returns (text : string)
  (Hne : text <> "") (Hsp : Py.last_char text <> Some " "%char) :
  exists sents, split_sentences text = Ret sents.
Proof. exact (split_sentences_total_off_space text Hne Hsp). Qed.

(** X20. With no direct answer, a non-empty abstract that does not end in
    a space always yields an answer: the abstract branch of the selection
    neither raises nor returns [None] there. *)
Theorem abstract_branch_returns (fuel : nat) (cfg : Config) (query : string)
  (response : Response)
  (Hans : answer response = None)
  (Hne : abstract_text response <> "")
  (Hsp : Py.last_char (abstract_text response) <> Some " "%char) :
  exists a, select_answer fuel cfg query response = Ret (Some a).
Proof.
  unfold select_answer. rewrite Hans.
  destruct (split_sentences_total_off_space _ Hne Hsp) as [sents Hs].
  destruct (abstract_text response) as [|c t]; [contradiction|].
  cbn [String.length Nat.ltb Nat.leb]. rewrite Hs. cbn [rbind]. eauto.
Qed.

Lemma replace_nonempty (old new s : string) :
  old <> "" -> new <> "" -> s <> "" -> Py.replace old new s <> "".
Proof. intros Ho Hn Hs E. apply Hs. exact (replace_empty_inv old new Ho Hn s E). Qed.

Lemma insert_is_verb_nonempty (articles words : list string) (nq : nat)
  (ans : string) :
  ans <> "" -> insert_is_verb articles words nq ans <> "".
Proof.
  intros Hne. induction articles as [|a rest IH]; cbn [insert_is_verb]; auto.
  destruct (Py.mem (Py.title a) words); auto.
  destruct (Nat.leb _ _); auto.
  apply app_nonempty_r. discriminate.
Qed.

Lemma ensure_punctuation_returns (ans : string) :
  ans <> "" -> exists a, ensure_punctuation ans = Ret a.
Proof.
  intros Hne. unfold ensure_punctuation.
  destruct (last_char_nonempty ans Hne) as [c ->].
  destruct (Py.char_in c ".?!"); eauto.
Qed.

(** X21. On a non-empty abstract that does not end in ".." the
    reformatter always returns, whatever the word lists and the query: no
    loop is entered and the final [ans[-1]] finds a character. *)
Theorem format_related_returns (fuel : nat) (cfg : Config)
  (abstract query : string)
  (Hne : abstract <> "")
  (Hfull : Py.last_n 2 abstract <> "..") :
  exists a, format_related fuel cfg abstract query = Ret a.
Proof.
  unfold format_related.
  apply String.eqb_neq in Hfull. rewrite Hfull. cbn [rbind].
  destruct (search_category 0 abstract) as [[start group]|];
    [destruct (Nat.leb start (String.length query * 2))|].
  - apply ensure_punctuation_returns.
    assert (N : insert_is_verb (translated_articles cfg)
                  (Py.split_ws (Py.replace ("(" ++ group ++ ")") "()" abstract))
                  (List.length (Py.split_ws query))
                  (Py.replace ("(" ++ group ++ ")") "()" abstract) <> "")
      by (apply insert_is_verb_nonempty, replace_nonempty;
          [discriminate | discriminate | exact Hne]).
    destruct group as [|g gs]; [exact N|].
    apply replace_nonempty; [discriminate | discriminate | exact N].
  - apply ensure_punctuation_returns, insert_is_verb_nonempty, Hne.
  - apply ensure_punctuation_returns, insert_is_verb_nonempty, Hne.
Qed.

End Returns.

(* ================================================================= *)
(** ** The further properties at concrete inputs *)

(** "Earth is a planet" holds none of . ! ? *)
Lemma split_sentences_unpunctuated_witness :
  split_sentences "Earth is a planet" = Ret ["Earth is a planet"].
Proof.
  apply (split_sentences_unpunctuated "Earth is a planet");
    [discriminate | reflexivity].
Defined.

(** The one sentence of "Earth is a planet." *)
Lemma split_sentences_never_empty_witness :
  split_sentences "Earth is a planet." = Ret ["Earth is a planet"] /\
  ["Earth is a planet"] <> [].
Proof.
  split; [reflexivity|].
  apply (split_sentences_never_empty "Earth is a planet."). reflexivity.
Defined.

Lemma unpunctuated_abstract_returned_witness :
  select_answer 0 cfg_spaced_verb "earth" (plain "Earth is a planet" None)
  = Ret (Some "Earth is a planet").
Proof.
  apply (unpunctuated_abstract_returned 0 cfg_spaced_verb "earth"
           (plain "Earth is a planet" None));
    [reflexivity | discriminate | reflexivity].
Defined.

(** The related-topic text of Mercury. *)
Lemma format_related_ends_sentence_witness :
  format_related 0 cfg_spaced_verb "Mercury, A planet in the Solar System" "mercury"
    = Ret "Mercury, is a planet in the Solar System." /\
  "Mercury, is a planet in the Solar System." <> "" /\
  ends_in_terminal "Mercury, is a planet in the Solar System." = true.
Proof.
  split; [reflexivity|].
  apply (format_related_ends_sentence 0 cfg_spaced_verb
           "Mercury, A planet in the Solar System" "mercury").
  reflexivity.
Defined.

(** The truncated one-word abstract "Running..", with a thousand rounds of
    fuel. *)
Lemma format_related_hangs_on_lone_gerund_witness :
  format_related 1000 cfg_spaced_verb "Running.." "run" = OutOfFuel.
Proof.
  apply (format_related_hangs_on_lone_gerund cfg_spaced_verb "Runn");
    reflexivity.
Defined.

Lemma extract_topic_strips_question_witness :
  String.length (extract_topic cfg_spaced_verb "what is the earth")
  < String.length "what is the earth".
Proof.
  apply (extract_topic_strips_question cfg_spaced_verb "what" " is");
    [now left | now left | reflexivity].
Defined.

(** "earth" starts with none of the three prefixes. *)
Lemma common_query_no_match_no_call_witness :
  CQS_match_query_phrase 0 env_earth cfg_spaced_verb "earth" = ([], Ret None).
Proof.
  apply (common_query_no_match_no_call 0 env_earth cfg_spaced_verb "earth").
  reflexivity.
Defined.

Lemma common_query_answer_provenance_witness :
  "what is the earth" = "what is the earth" /\
  "Earth is a planet" <> "" /\
  exists p topic,
    "what is the earth" = p ++ topic /\
    outcome (query_ddg 0 env_earth cfg_spaced_verb topic)
    = Ret (Some "Earth is a planet").
Proof.
  apply (common_query_answer_provenance 0 env_earth cfg_spaced_verb
           "what is the earth" "what is the earth" CATEGORY "Earth is a planet").
  reflexivity.
Defined.

Lemma query_ddg_single_call_witness :
  query_ddg 0 env_42 cfg_spaced_verb "meaning of life"
  = ([EvQuery "meaning of life"],
     select_answer 0 cfg_spaced_verb "meaning of life" reply_42).
Proof.
  apply (query_ddg_single_call 0 env_42 cfg_spaced_verb "meaning of life" reply_42);
    [discriminate | reflexivity | left; discriminate].
Defined.


(** The parsed detail page holds nothing: no answer, although the
    original result had a usable related topic. *)
Lemma query_ddg_detail_replaces_witness :
  query_ddg 0 env_detail_parsed cfg_spaced_verb "mercury"
  = ([EvQuery "mercury"; EvGet "https://duckduckgo.com/Mercury_(planet)?o=x"],
     select_answer 0 cfg_spaced_verb "mercury" empty_result).
Proof.
  apply (query_ddg_detail_replaces 0 env_detail_parsed cfg_spaced_verb
           "mercury" (disambiguation_of mercury) empty_result mercury []
           "https://duckduckgo.com/Mercury_(planet)" "<DuckDuckGoResponse/>");
    [discriminate | reflexivity | reflexivity | reflexivity | reflexivity
    | reflexivity | discriminate | reflexivity].
Defined.

Lemma answers_off_abstract_end_sentence_witness :
  "Mercury, is a planet in the Solar System." <> "" /\
  ends_in_terminal "Mercury, is a planet in the Solar System." = true.
Proof.
  apply (answers_off_abstract_end_sentence 0 cfg_spaced_verb "mercury"
           (disambiguation_of mercury));
    reflexivity.
Defined.

Lemma split_sentences_returns_witness :
  exists sents, split_sentences "Earth is a planet. It is round." = Ret sents.
Proof.
  apply (split_sentences_returns "Earth is a planet. It is round.");
    discriminate.
Defined.

Lemma abstract_branch_returns_witness :
  exists a,
    select_answer 0 cfg_spaced_verb "earth"
      (plain "Earth is a planet. It is round." None) = Ret (Some a).
Proof.
  apply (abstract_branch_returns 0 cfg_spaced_verb "earth"
           (plain "Earth is a planet. It is round." None));
    [reflexivity | discriminate | discriminate].
Defined.

Lemma format_related_returns_witness :
  exists a,
    format_related 0 cfg_spaced_verb "Mercury, A planet in the Solar System"
      "mercury" = Ret a.
Proof.
  apply (format_related_returns 0 cfg_spaced_verb
           "Mercury, A planet in the Solar System" "mercury");
    discriminate.
Defined.

(* ================================================================= *)
(** ** Related topics that lack a field *)

Section MissingField.

Variables (fuel : nat) (env : Env) (cfg : Config).

(** X22. A first related topic that lacks a field makes [query_ddg] end
    in an uncaught [TypeError] right after the primary search: without a
    url on a disambiguation result (before any detail fetch), and without
    a text when the selection reaches the related-topic branch of another
    result. *)
Theorem query_ddg_missing_field_type_error (query : string)
  (response : Response) (r0 : Related) (rest : list Related)
  (Hq : query <> "")
  (Hr : ddg_query env query = Ret response)
  (Hrel : related response = r0 :: rest)
  (H : (rtype response = "disambiguation" /\ related_url r0 = None) \/
       (rtype response <> "disambiguation" /\ answer response = None /\
        abstract_text response = "" /\ related_text r0 = None)) :
  query_ddg fuel env cfg query = ([EvQuery query], Raise TypeError).
Proof.
  rewrite (query_ddg_returned fuel env cfg _ _ Hq Hr), bind_emit_ret.
  destruct H as [[Ht Hu] | [Ht [Ha [Hab Htx]]]].
  - now rewrite (disambiguate_missing_url env response r0 rest Ht Hrel Hu).
  - assert (D : disambiguate env response = ret response).
    { unfold disambiguate.
      destruct (String.eqb (rtype response) "disambiguation") eqn:E;
        [|reflexivity].
      apply String.eqb_eq in E. contradiction. }
    rewrite D, bind_ret_l.
    unfold lift. cbn [trace outcome fst snd].
    now rewrite (select_answer_missing_text fuel cfg query response r0 rest
                   Ha Hab Hrel Htx).
Qed.

End MissingField.

Lemma query_ddg_missing_field_type_error_witness :
  query_ddg 0 env_bare_disambiguation cfg_spaced_verb "mercury"
    = ([EvQuery "mercury"], Raise TypeError) /\
  query_ddg 0 env_bare_related cfg_spaced_verb "mercury"
    = ([EvQuery "mercury"], Raise TypeError).
Proof.
  split.
  - apply (query_ddg_missing_field_type_error 0 env_bare_disambiguation
             cfg_spaced_verb "mercury" (disambiguation_of bare_topic)
             bare_topic []);
      [discriminate | reflexivity | reflexivity | left; now split].
  - apply (query_ddg_missing_field_type_error 0 env_bare_related
             cfg_spaced_verb "mercury"
             {| rtype := "answer"; related := [bare_topic];
                abstract_text := ""; answer := None |}
             bare_topic []);
      [discriminate | reflexivity | reflexivity
      | right; repeat split; discriminate || reflexivity].
Defined.
